(** * Task-migration state of the airlift tutorial example

    A shallow embedding of
    - [tutorial_example_tests/integration_tests/conftest.py]: the
      [mark_tasks_migrated] fixture, a generator-based context manager that
      rewrites the migration state file for the duration of a [with] block
      and restores it afterwards, and the [dags_dir] fixture, which copies
      the dags to a temporary directory;
    - [tutorial_example/dagster_defs/stages/migrate.py]: [dbt_project_path],
      the names of the workflow and of its tasks, and the asset definitions
      of the loader and of the exporter;
    together with the read side of the migration state store (the
    document parser, [is_migrated], the execution-authority rule), whose
    code is not part of these files and is modelled from the specification.

    Python values are modelled as an inductive type, the file system as a
    finite map from paths to text, and Python code with effects in a state
    and exception monad over that file system. The module [Posix] has the
    [mark_tasks_migrated] fixture once more over the bytes of the files and
    the directories that exist, where line endings and failing writes
    matter. *)

From Stdlib Require Import Ascii.
From stdpp Require Import base gmap sets list strings.

(** ** Paths (pathlib) *)

(** A [pathlib.Path] is kept as the expression that builds it: [Path(s)] or
    [parent / child]. pathlib's normalisation of separators is not modelled,
    so two equal terms always denote the same path, while two different
    terms may. *)
Inductive Path : Type :=
| PathOf (s : string)
| PathDiv (parent : Path) (child : string).

Declare Scope path_scope.
Delimit Scope path_scope with path.
Bind Scope path_scope with Path.
Notation "p // c" := (PathDiv p c) (at level 40, left associativity) : path_scope.
Local Open Scope path_scope.

#[global] Instance Path_eq_dec : EqDecision Path.
Proof. solve_decision. Defined.

Fixpoint path_encode (p : Path) : list string :=
  match p with
  | PathOf s => [s]
  | PathDiv q c => c :: path_encode q
  end.

Fixpoint path_decode (l : list string) : option Path :=
  match l with
  | [] => None
  | [s] => Some (PathOf s)
  | c :: rest => (fun q => PathDiv q c) <$> path_decode rest
  end.

#[global] Instance Path_countable : Countable Path.
Proof.
  refine (inj_countable path_encode path_decode _).
  intros p. induction p as [s | q IH c]; [reflexivity |].
  cbn [path_encode path_decode]. rewrite IH.
  destruct (path_encode q) eqn:E; [destruct q; discriminate | reflexivity].
Defined.

(** [PurePath.relative_to], on path expressions: the components that lead
    from [base] to [p], when [p] is built from [base]. *)
Fixpoint relative_to (p base : Path) : option (list string) :=
  if decide (p = base) then Some []
  else match p with
       | PathOf _ => None
       | PathDiv q c => (fun l => l ++ [c]) <$> relative_to q base
       end.

(** ** Exceptions, the file system, and the monad of Python code *)

Inductive exn : Type :=
| FileNotFoundError (p : Path)
| AssertionError (msg : string)
| TypeError
| Exception (what : string).

Inductive result (A : Type) : Type :=
| Ok (a : A)
| Raise (e : exn).
Arguments Ok {A} a.
Arguments Raise {A} e.

(** The files are text files as [open(..., "r")] and [open(..., "w")] see
    them. [writes] records every write made through [write_text], oldest
    first. *)
Record World : Type := mkWorld {
  files : gmap Path string;
  writes : list (Path * string)
}.

Definition M (A : Type) : Type := World -> result A * World.

Definition ret {A} (a : A) : M A := fun w => (Ok a, w).

Definition raise {A} (e : exn) : M A := fun w => (Raise e, w).

Definition bind {A B} (m : M A) (k : A -> M B) : M B :=
  fun w => match m w with
           | (Ok a, w1) => k a w1
           | (Raise e, w1) => (Raise e, w1)
           end.

#[global] Instance M_ret : MRet M := @ret.
#[global] Instance M_bind : MBind M := fun A B k m => bind m k.

(** [with open(p, "r") as f: f.read()]: the text of the file, or
    [FileNotFoundError] when there is no such file. The world holds the
    text of each file as text mode gives it, line endings already read as
    newlines; [Posix.read_text] below reads the bytes. *)
Definition read_text (p : Path) : M string :=
  fun w => match files w !! p with
           | Some contents => (Ok contents, w)
           | None => (Raise (FileNotFoundError p), w)
           end.

(** [with open(p, "w") as f: f.write(s)]: creates or truncates the file;
    its directory is taken to exist, so the write succeeds.
    [Posix.write_text] below fails when the file cannot be opened. *)
Definition write_text (p : Path) (s : string) : M unit :=
  fun w => (Ok tt, {| files := <[p := s]> (files w);
                      writes := writes w ++ [(p, s)] |}).

(** [try: body finally: final]. An exception of [final] replaces the
    outcome of [body]. *)
Definition try_finally {A} (body : M A) (final : M unit) : M A :=
  fun w => let '(r, w1) := body w in
           match final w1 with
           | (Ok _, w2) => (r, w2)
           | (Raise e, w2) => (Raise e, w2)
           end.

(** A generator with a single [yield], as [contextlib.contextmanager]
    takes it. Running it up to the [yield] either raises or suspends it;
    a suspended generator is resumed with the outcome of the [with] body:
    [Ok tt] for [next()], [Raise e] for [throw(e)]. *)
Definition Generator : Type := M (result unit -> M unit).

(** [try: pre; yield finally: final], the generator body of the fixture. *)
Definition try_yield_finally (pre : M unit) (final : M unit) : Generator :=
  fun w => match pre w with
           | (Ok _, w1) =>
               (Ok (fun r : result unit => try_finally (fun w' => (r, w')) final), w1)
           | (Raise e, w1) => try_finally (raise e) final w1
           end.

(** [with cm: body] for a [contextmanager]-decorated generator [cm]:
    [__enter__] runs the generator to its [yield], the body runs, and
    [__exit__] resumes the generator with the body's outcome. *)
Definition with_ (cm : Generator) (body : M unit) : M unit :=
  resume ← cm;
  (fun w => let '(r, w1) := body w in resume r w1) : M unit.

(** ** Python values and [yaml.dump] *)

(** The Python values the fixture hands to [yaml.dump]. A [dict] is an
    association list in insertion order. *)
#[local] Unset Elimination Schemes.
Inductive py_value : Type :=
| PyStr (s : string)
| PyBool (b : bool)
| PyList (items : list py_value)
| PyDict (entries : list (string * py_value)).
#[local] Set Elimination Schemes.

Definition newline : string := String "010"%char EmptyString.

(** [sort_keys=True], PyYAML's default: the entries of a mapping are emitted
    in the order of their keys. *)
Fixpoint insert_by_key {A} (kv : string * A) (l : list (string * A)) : list (string * A) :=
  match l with
  | [] => [kv]
  | kv' :: rest =>
      if String.leb (fst kv) (fst kv') then kv :: l
      else kv' :: insert_by_key kv rest
  end.

Definition sort_keys {A} (l : list (string * A)) : list (string * A) :=
  foldr insert_by_key [] l.

(** The lines of a sequence item: [- ] before the first line, two spaces
    before the others. *)
Definition hang (lines : list string) : list string :=
  match lines with
  | [] => []
  | l :: rest => ("- " +:+ l) :: map (fun l' => "  " +:+ l') rest
  end.

(** One entry of a block mapping. A scalar or an empty collection follows
    the key on its line; a block sequence starts on the next line at the
    indentation of the key; a block mapping starts on the next line, two
    columns in. *)
Definition entry_lines (key : string) (v : py_value) (lines : list string) : list string :=
  match v with
  | PyList (_ :: _) => (key +:+ ":") :: lines
  | PyDict (_ :: _) => (key +:+ ":") :: map (fun l => "  " +:+ l) lines
  | _ => [key +:+ ": " +:+ String.concat "" lines]
  end.

(** The lines [yaml.dump] emits for a value in block style
    ([default_flow_style=False], indentation 2). Strings are emitted as
    plain scalars, which is what PyYAML does for identifiers such as the
    keys and the task names of this program; strings that PyYAML would
    quote are outside this model. *)
Fixpoint yaml_lines (v : py_value) : list string :=
  match v with
  | PyStr s => [s]
  | PyBool b => [if b then "true" else "false"]
  | PyList [] => ["[]"]
  | PyList items => flat_map (fun item => hang (yaml_lines item)) items
  | PyDict [] => ["{}"]
  | PyDict entries =>
      flat_map (fun kvl : string * (py_value * list string) =>
                  entry_lines (fst kvl) (fst (snd kvl)) (snd (snd kvl)))
        (sort_keys (map (fun kv : string * py_value =>
                           (fst kv, (snd kv, yaml_lines (snd kv)))) entries))
  end.

Definition unlines (lines : list string) : string :=
  String.concat "" (map (fun l => l +:+ newline) lines).

(** [yaml.dump(v)]: every line ends with a newline; a document that is a
    bare scalar is closed by the [...] marker. *)
Definition yaml_dump (v : py_value) : string :=
  match v with
  | PyStr _ | PyBool _ => unlines (yaml_lines v ++ ["..."])
  | _ => unlines (yaml_lines v)
  end.

(** ** [migrate.py] *)

(** [os.environ], and [os.getenv]. *)
Definition getenv (environ : gmap string string) (name : string) : option string :=
  environ !! name.

(** Truth value of an [Optional[str]]: [None] and the empty string are
    false. *)
Definition truthy (v : option string) : bool :=
  match v with
  | None => false
  | Some EmptyString => false
  | Some (String _ _) => true
  end.

(** [assert cond, msg]. *)
Definition assert_ (cond : bool) (msg : string) : result unit :=
  if cond then Ok tt else Raise (AssertionError msg).

(** [Path(v)] for an [Optional[str]]: [None] is not path-like. *)
Definition Path_ (v : option string) : result Path :=
  match v with
  | Some s => Ok (PathOf s)
  | None => Raise TypeError
  end.

Definition dbt_project_path (environ : gmap string string) : result Path :=
  let env_val := getenv environ "TUTORIAL_DBT_PROJECT_DIR" in
  match assert_ (truthy env_val) "TUTORIAL_DBT_PROJECT_DIR must be set" with
  | Raise e => Raise e
  | Ok _ => Path_ env_val
  end.

(** The workflow that [defs] declares with [dag_defs], and the tasks it
    declares with [task_defs], in that order. *)
Definition dag_id : string := "rebuild_customers_list".

Definition dag_task_ids : list string :=
  ["load_raw_customers"; "build_dbt_models"; "export_customers"].

(** ** [conftest.py]: the [mark_tasks_migrated] fixture *)

Definition migration_state_file (dags_dir : Path) : Path :=
  dags_dir // "migration_state" // "rebuild_customers_list.yaml".

Definition all_tasks : gset string :=
  {[ "load_raw_customers"; "build_dbt_models"; "export_customers" ]}.

(** [{"id": task, "migrated": task in migrated_tasks}]. *)
Definition task_entry (migrated_tasks : gset string) (task : string) : py_value :=
  PyDict [("id", PyStr task);
          ("migrated", PyBool (bool_decide (task ∈ migrated_tasks)))].

(** The dictionary given to [yaml.dump]. The comprehension visits
    [all_tasks], a set, in the order [elements all_tasks]; nothing below
    depends on which order that is. *)
Definition document (migrated_tasks : gset string) : py_value :=
  PyDict [("tasks", PyList (task_entry migrated_tasks <$> elements all_tasks))].

Section Fixture.
(** The fixture's arguments: the directory holding the copied dags, and
    the [reserialize_dags] fixture, any Python procedure. *)
Variable dags_dir : Path.
Variable reserialize_dags : M unit.

Definition mark_tasks_migrated (migrated_tasks : gset string) : Generator :=
  contents ← read_text (migration_state_file dags_dir);
  try_yield_finally
    (write_text (migration_state_file dags_dir) (yaml_dump (document migrated_tasks));;
     reserialize_dags)
    (write_text (migration_state_file dags_dir) contents).
End Fixture.

(** [yaml.safe_load] followed by the reading of [tasks], [id] and
    [migrated], on a Python value: the (id, flag) pairs a document lists,
    in order. *)
Definition py_getitem (v : py_value) (key : string) : option py_value :=
  match v with
  | PyDict entries => snd <$> find (fun kv => bool_decide (fst kv = key)) entries
  | _ => None
  end.

Definition entry_record (item : py_value) : option (string * bool) :=
  match py_getitem item "id", py_getitem item "migrated" with
  | Some (PyStr task), Some (PyBool flag) => Some (task, flag)
  | _, _ => None
  end.

Definition document_records (doc : py_value) : list (string * bool) :=
  match py_getitem doc "tasks" with
  | Some (PyList items) => omap entry_record items
  | _ => []
  end.

(** ** The migration state store *)

Module Store.

(** Modelled from the spec: the data model of section 3. The store's own
    code (the loader of the state documents and the query the two
    orchestrators make) is not among the source files. *)
Record MigrationRecord : Type := mkRecord {
  task_id : string;
  migrated : bool
}.

(** Modelled from the spec: a [MigrationState], section 3, is the ordered
    sequence of its records. *)
Record MigrationState : Type := mkState {
  tasks : list MigrationRecord
}.

#[global] Instance MigrationRecord_eq_dec : EqDecision MigrationRecord.
Proof. solve_decision. Defined.

Definition task_ids (state : MigrationState) : list string :=
  task_id <$> tasks state.

(** Modelled from the spec: the invariant of section 3, for a workflow
    whose tasks are [known]: no task id is listed twice, and every known
    task is listed. *)
Definition well_formed (known : list string) (state : MigrationState) : Prop :=
  NoDup (task_ids state) ∧ known ⊆ task_ids state.

(** Modelled from the spec: the error taxonomy of section 7. *)
Inductive StoreError : Type := NotFoundError | MalformedStateError | WriteError.

(** Modelled from the spec: [save]'s serialisation, section 4.1, to the
    document format of section 6. The only serialising code among the
    source files is the fixture's, for the states it builds; this is the
    same dictionary and the same [yaml.dump], for any state. *)
Definition record_entry (r : MigrationRecord) : py_value :=
  PyDict [("id", PyStr (task_id r)); ("migrated", PyBool (migrated r))].

Definition state_document (state : MigrationState) : py_value :=
  PyDict [("tasks", PyList (record_entry <$> tasks state))].

Definition serialize (state : MigrationState) : string :=
  yaml_dump (state_document state).

(** The two lines [serialize] gives a record. *)
Definition record_lines (r : MigrationRecord) : list string :=
  ["- id: " +:+ task_id r;
   "  migrated: " +:+ (if migrated r then "true" else "false")].

(** [str.splitlines] for the newline character. *)
Fixpoint split_lines (s : string) : list string :=
  match s with
  | EmptyString => []
  | String c rest =>
      if Ascii.eqb c "010"%char then EmptyString :: split_lines rest
      else match split_lines rest with
           | [] => [String c EmptyString]
           | l :: ls => String c l :: ls
           end
  end.

(** A text without newline character: one line. *)
Fixpoint one_line (s : string) : bool :=
  match s with
  | EmptyString => true
  | String c rest => negb (Ascii.eqb c "010"%char) && one_line rest
  end.

(** [str.lstrip(" ")]. *)
Fixpoint lstrip (s : string) : string :=
  match s with
  | String c rest => if Ascii.eqb c " "%char then lstrip rest else s
  | EmptyString => EmptyString
  end.

Fixpoint strip_prefix (prefix s : string) : option string :=
  match prefix, s with
  | EmptyString, _ => Some s
  | String a prefix', String b s' =>
      if Ascii.eqb a b then strip_prefix prefix' s' else None
  | String _ _, EmptyString => None
  end.

Definition parse_flag (s : string) : option bool :=
  if String.eqb s "true" then Some true
  else if String.eqb s "false" then Some false
  else None.

(** Modelled from the spec: the records of a document in the format of
    section 6, two lines for each: [- id: <task_identifier>] and
    [migrated: <true|false>], at any indentation. *)
Fixpoint parse_records (lines : list string) : option (list MigrationRecord) :=
  match lines with
  | [] => Some []
  | l1 :: l2 :: rest =>
      id ← strip_prefix "- id: " (lstrip l1);
      flag ← strip_prefix "migrated: " (lstrip l2) ≫= parse_flag;
      records ← parse_records rest;
      Some (mkRecord id flag :: records)
  | [_] => None
  end.

(** Modelled from the spec: a document in the format of section 6, the
    [tasks:] key followed by the records ([tasks: []] when there is
    none). *)
Definition parse_document (text : string) : option (list MigrationRecord) :=
  match split_lines text with
  | header :: lines =>
      if String.eqb header "tasks:" then parse_records lines
      else if String.eqb header "tasks: []" then
             match lines with
             | [] => Some []
             | _ :: _ => None
             end
      else None
  | [] => None
  end.

(** Modelled from the spec: the parsing step of [load], section 4.1.
    A document that cannot be parsed, or that lists a task id twice, is
    refused with [MalformedStateError]. *)
Definition parse_state (text : string) : StoreError + MigrationState :=
  match parse_document text with
  | Some records =>
      if decide (NoDup (task_id <$> records)) then inr (mkState records)
      else inl MalformedStateError
  | None => inl MalformedStateError
  end.

(** Modelled from the spec: [is_migrated], section 4.1. The stored flag
    of the record with that id; [false] when there is none. *)
Definition is_migrated (state : MigrationState) (id : string) : bool :=
  match find (fun r => bool_decide (task_id r = id)) (tasks state) with
  | Some r => migrated r
  | None => false
  end.

(** Modelled from the spec: the two executors of section 4.2. *)
Inductive Executor : Type := NEW_ORCHESTRATOR | LEGACY_ORCHESTRATOR.

#[global] Instance Executor_eq_dec : EqDecision Executor.
Proof. solve_decision. Defined.

(** Modelled from the spec: the rule of section 4.2,
    [is_migrated(state, task_id) ? NEW_ORCHESTRATOR : LEGACY_ORCHESTRATOR]. *)
Definition authority (state : MigrationState) (id : string) : Executor :=
  if is_migrated state id then NEW_ORCHESTRATOR else LEGACY_ORCHESTRATOR.

(** Modelled from the spec: an orchestrator runs a task when the rule,
    applied to the document it reads, names it (section 2). *)
Definition claims (who : Executor) (state : MigrationState) (id : string) : bool :=
  bool_decide (authority state id = who).

(** The state the fixture's document expresses: [document] is its
    [state_document]. *)
Definition written_state (migrated_tasks : gset string) : MigrationState :=
  mkState ((fun task => mkRecord task (bool_decide (task ∈ migrated_tasks)))
             <$> elements all_tasks).

End Store.

(** ** Data of the specification's scenarios *)

(** A document in the layout of the specification, all tasks legacy. *)
Definition all_legacy_text : string :=
  unlines ["tasks:";
           "  - id: load_raw_customers"; "    migrated: false";
           "  - id: build_dbt_models"; "    migrated: false";
           "  - id: export_customers"; "    migrated: false"].

Definition all_legacy : Store.MigrationState :=
  Store.mkState [Store.mkRecord "load_raw_customers" false;
                 Store.mkRecord "build_dbt_models" false;
                 Store.mkRecord "export_customers" false].

(** A body for the [with] block: it reads the state file, asks whether
    [export_customers] is migrated, and notes the answer in another file. *)
Definition observe (dags_dir : Path) : M unit :=
  text ← read_text (migration_state_file dags_dir);
  match Store.parse_state text with
  | inr state =>
      write_text (dags_dir // "observed")
        (if Store.is_migrated state "export_customers" then "true" else "false")
  | inl _ => raise (Exception "malformed")
  end.

(** * Further code of the two modules *)

(** ** [migrate.py]: the asset definitions *)

(** [s.rsplit(sep, maxsplit)] for a one-character separator. The text is
    scanned from its end: [rev_s] is what remains to scan, reversed, [cur]
    the piece being read and [acc] the pieces already cut, all to the right
    of [cur]. *)
Fixpoint rsplit_rev (sep : ascii) (maxsplit : nat) (rev_s cur : list ascii)
    (acc : list string) {struct rev_s} : list string :=
  match rev_s with
  | [] => String.string_of_list_ascii cur :: acc
  | c :: rest =>
      match maxsplit with
      | S n =>
          if Ascii.eqb c sep
          then rsplit_rev sep n rest [] (String.string_of_list_ascii cur :: acc)
          else rsplit_rev sep maxsplit rest (c :: cur) acc
      | O => rsplit_rev sep maxsplit rest (c :: cur) acc
      end
  end.

Definition rsplit (sep : ascii) (maxsplit : nat) (s : string) : list string :=
  rsplit_rev sep maxsplit (reverse (String.list_ascii_of_string s)) [] [].

(** The characters of a reversed text that come before its first
    separator: the end of the text, after its last separator. *)
Fixpoint until_sep (sep : ascii) (rev_s : list ascii) : list ascii :=
  match rev_s with
  | [] => []
  | c :: rest => if Ascii.eqb c sep then [] else c :: until_sep sep rest
  end.

(** [s.replace(old, new)] for one-character [old] and [new]. *)
Fixpoint replace (old new : ascii) (s : string) : string :=
  match s with
  | EmptyString => EmptyString
  | String c rest =>
      String (if Ascii.eqb c old then new else c) (replace old new rest)
  end.

(** [c in s] for a character. *)
Fixpoint occurs (c : ascii) (s : string) : bool :=
  match s with
  | EmptyString => false
  | String c' rest => Ascii.eqb c' c || occurs c rest
  end.

(** The argument records of the shared loader and exporter, with the
    fields the call sites of [migrate.py] give them. *)
Module LoadCsvToDuckDbArgs.
Record t : Type := mk {
  table_name : string;
  csv_path : Path;
  duckdb_path : Path;
  names : list string;
  duckdb_schema : string;
  duckdb_database_name : string
}.
End LoadCsvToDuckDbArgs.

Module ExportDuckDbToCsvArgs.
Record t : Type := mk {
  table_name : string;
  csv_path : Path;
  duckdb_path : Path;
  duckdb_schema : string;
  duckdb_database_name : string
}.
End ExportDuckDbToCsvArgs.

(** What [migrate.py] passes to [AssetSpec], [multi_asset] and
    [Definitions]: an asset key given as a string or as a list of strings,
    the dependencies, the name of the asset definition and the call its
    body makes. The checks dagster makes on these values are not
    modelled. *)
Inductive CoercibleToAssetKey : Type :=
| KeyStr (s : string)
| KeySeq (path : list string).

Record AssetSpec : Type := mkAssetSpec {
  key : CoercibleToAssetKey;
  deps : list string
}.

Inductive Compute : Type :=
| load_csv_to_duckdb (args : LoadCsvToDuckDbArgs.t)
| export_duckdb_to_csv (args : ExportDuckDbToCsvArgs.t).

Record AssetsDefinition : Type := mkAssetsDefinition {
  name : string;
  specs : list AssetSpec;
  compute : Compute
}.

Record Definitions : Type := mkDefinitions {
  assets : list AssetsDefinition
}.

Definition load_csv_to_duckdb_defs (args : LoadCsvToDuckDbArgs.t) : Definitions :=
  let spec :=
    mkAssetSpec (KeySeq [LoadCsvToDuckDbArgs.duckdb_schema args;
                         LoadCsvToDuckDbArgs.table_name args]) [] in
  mkDefinitions
    [mkAssetsDefinition ("load_" +:+ LoadCsvToDuckDbArgs.table_name args) [spec]
       (load_csv_to_duckdb args)].

Section ExportDefs.
(** [str] of a path, pathlib's rendering. *)
Variable str : Path -> string.

(** [str(args.csv_path).rsplit("/", 2)[-1].replace(".", "_")]. Indexing
    with [-1] fails on an empty list: [None] stands for that
    [IndexError]. *)
Definition export_asset_key (csv_path : Path) : option string :=
  replace "."%char "_"%char <$> last (rsplit "/"%char 2 (str csv_path)).

Definition export_duckdb_to_csv_defs (args : ExportDuckDbToCsvArgs.t) : option Definitions :=
  asset_key ← export_asset_key (ExportDuckDbToCsvArgs.csv_path args);
  let spec := mkAssetSpec (KeyStr asset_key) [ExportDuckDbToCsvArgs.table_name args] in
  Some (mkDefinitions
          [mkAssetsDefinition ("export_" +:+ ExportDuckDbToCsvArgs.table_name args) [spec]
             (export_duckdb_to_csv args)]).
End ExportDefs.

(** ** [conftest.py]: the [dags_dir] fixture *)

(** [base.joinpath] of the components [rel]. *)
Definition path_join (base : Path) (rel : list string) : Path :=
  foldl PathDiv base rel.

(** [shutil.copytree(src, dst, dirs_exist_ok=True)] on the files: every
    file below [src] is copied to the same place below [dst], over what is
    there. The directory [src] is taken to exist. *)
Definition copy_entry (src dst : Path) (entry : Path * string)
    (acc : gmap Path string) : gmap Path string :=
  match relative_to entry.1 src with
  | Some rel => <[path_join dst rel := entry.2]> acc
  | None => acc
  end.

Definition copy_files (src dst : Path) (fs : gmap Path string) : gmap Path string :=
  foldr (copy_entry src dst) fs (map_to_list fs).

Definition copytree (src dst : Path) : M unit :=
  fun w => (Ok tt, {| files := copy_files src dst (files w); writes := writes w |}).

(** [shutil.rmtree(dir)], what leaving [TemporaryDirectory] does: no file
    below [dir] is left. *)
Definition rmtree (dir : Path) : M unit :=
  fun w => (Ok tt, {| files := filter (fun entry => relative_to entry.1 dir = None) (files w);
                      writes := writes w |}).

(** A pytest fixture written as a generator, run to its [yield]: the value
    it yields, and the rest of the generator, which pytest runs once the
    test is over, however it ended. *)
Definition Fixture (A : Type) : Type := M (A * M unit).

(** [with cm: pre; yield value], where leaving [cm] runs [exit]. *)
Definition with_yield {A} (exit : M unit) (pre : M A) : Fixture A :=
  fun w => match pre w with
           | (Ok a, w1) => (Ok (a, exit), w1)
           | (Raise e, w1) => try_finally (raise e) exit w1
           end.

(** [tmpdir] is the name [TemporaryDirectory()] gives the directory it
    creates. *)
Definition dags_dir_fixture (tmpdir : string) (makefile_dir : Path) : Fixture Path :=
  with_yield (rmtree (PathOf tmpdir))
    (copytree (makefile_dir // "tutorial_example" // "airflow_dags") (PathOf tmpdir);;
     mret (PathOf tmpdir)).

(** A test that requests the fixture. *)
Definition use_fixture {A} (fixture : Fixture A) (test : A -> M unit) : M unit :=
  setup ← fixture;
  try_finally (test setup.1) setup.2.

(** ** Procedures that leave a file, or the log of writes, alone *)

Definition preserves (p : Path) (m : M unit) : Prop :=
  ∀ w, files (m w).2 !! p = files w !! p.



(** ** The state file on disk *)

(** The definitions above see a file as the text that text mode reads and
    writes, in a directory that is there. [Posix] has the same fixture over
    the bytes of the files and the directories that exist: reading in text
    mode translates line endings, and opening a file fails when its
    directory is gone or when the path is a directory. The separator of
    lines is the newline, as on the systems the fixture runs on, so writing
    translates nothing. Bytes are taken to decode, and permissions to
    allow the access. *)
Module Posix.

Record Disk : Type := mkDisk {
  dirs : gset Path;
  data : gmap Path string
}.

Definition IO (A : Type) : Type := Disk -> result A * Disk.

Definition ret {A} (a : A) : IO A := fun disk => (Ok a, disk).

Definition raise {A} (e : exn) : IO A := fun disk => (Raise e, disk).

Definition bind {A B} (m : IO A) (k : A -> IO B) : IO B :=
  fun disk => match m disk with
              | (Ok a, disk1) => k a disk1
              | (Raise e, disk1) => (Raise e, disk1)
              end.

#[global] Instance IO_ret : MRet IO := @ret.
#[global] Instance IO_bind : MBind IO := fun A B k m => bind m k.

(** Universal newlines, the default of [open]: on reading, a carriage
    return followed by a newline, and a carriage return alone, become a
    newline. *)
Fixpoint universal_newlines (raw : string) : string :=
  match raw with
  | EmptyString => EmptyString
  | String c rest =>
      if Ascii.eqb c "013"%char
      then String "010"%char
             match rest with
             | String c' rest' =>
                 if Ascii.eqb c' "010"%char then universal_newlines rest'
                 else universal_newlines rest
             | EmptyString => EmptyString
             end
      else String c (universal_newlines rest)
  end.

(** The directory of a path built with [/]. A path given as one string
    has none here: opening it does not depend on a directory. *)
Definition parent (p : Path) : option Path :=
  match p with
  | PathDiv q _ => Some q
  | PathOf _ => None
  end.

(** Why [open(p, ...)] fails, if it does: the path is a directory, or its
    directory does not exist. *)
Definition open_error (p : Path) (disk : Disk) : option exn :=
  if decide (p ∈ dirs disk) then Some (Exception "IsADirectoryError")
  else match parent p with
       | Some dir =>
           if decide (dir ∈ dirs disk) then None else Some (FileNotFoundError p)
       | None => None
       end.

(** [with open(p, "r") as f: f.read()]. *)
Definition read_text (p : Path) : IO string :=
  fun disk => match open_error p disk with
              | Some e => (Raise e, disk)
              | None =>
                  match data disk !! p with
                  | Some raw => (Ok (universal_newlines raw), disk)
                  | None => (Raise (FileNotFoundError p), disk)
                  end
              end.

(** [with open(p, "w") as f: f.write(s)]. *)
Definition write_text (p : Path) (s : string) : IO unit :=
  fun disk => match open_error p disk with
              | Some e => (Raise e, disk)
              | None => (Ok tt, {| dirs := dirs disk; data := <[p := s]> (data disk) |})
              end.

Definition try_finally {A} (body : IO A) (final : IO unit) : IO A :=
  fun disk => let '(r, disk1) := body disk in
              match final disk1 with
              | (Ok _, disk2) => (r, disk2)
              | (Raise e, disk2) => (Raise e, disk2)
              end.

Definition Generator : Type := IO (result unit -> IO unit).

Definition try_yield_finally (pre : IO unit) (final : IO unit) : Generator :=
  fun disk => match pre disk with
              | (Ok _, disk1) =>
                  (Ok (fun r : result unit => try_finally (fun disk' => (r, disk')) final),
                   disk1)
              | (Raise e, disk1) => try_finally (raise e) final disk1
              end.

Definition with_ (cm : Generator) (body : IO unit) : IO unit :=
  resume ← cm;
  (fun disk => let '(r, disk1) := body disk in resume r disk1) : IO unit.

Definition mark_tasks_migrated (dags_dir : Path) (reserialize_dags : IO unit)
    (migrated_tasks : gset string) : Generator :=
  contents ← read_text (migration_state_file dags_dir);
  try_yield_finally
    (write_text (migration_state_file dags_dir) (yaml_dump (document migrated_tasks));;
     reserialize_dags)
    (write_text (migration_state_file dags_dir) contents).


(** [shutil.rmtree(dir)]: the directory, those below it and their files
    are gone. *)
Definition rmtree (dir : Path) : IO unit :=
  fun disk =>
    (Ok tt, {| dirs := filter (fun p => relative_to p dir = None) (dirs disk);
               data := filter (fun entry => relative_to entry.1 dir = None) (data disk) |}).

End Posix.

(** The text view of a disk: a world with the same files. A procedure on
    disks and one on worlds go together, as far as the file [p] is
    concerned, when from a disk and its view, with [p] openable, they end
    the same way, in a disk and its view, with [p] still openable. *)
Definition text_view (disk : Posix.Disk) (w : World) : Prop :=
  Posix.data disk = files w.

Definition simulates (p : Path) (m_disk : Posix.IO unit) (m : M unit) : Prop :=
  ∀ disk w,
    text_view disk w →
    Posix.open_error p disk = None →
    (m_disk disk).1 = (m w).1
    ∧ text_view (m_disk disk).2 (m w).2
    ∧ Posix.open_error p (m_disk disk).2 = None.

(** ** The store's writer and its paths *)



(** Modelled from the spec: the invariant of section 3 read on a text, as
    a reader of the document finds it. *)
Definition well_formed_text (text : string) : Prop :=
  ∃ state, Store.parse_state text = inr state ∧ Store.well_formed dag_task_ids state.

(** Modelled from the spec: the path convention of sections 3 and 6, one
    document for each workflow, named after the workflow in the
    [migration_state] directory. The code that finds the documents of all
    workflows is not among the source files; the fixture has the path of
    one workflow. *)
Definition state_document_path (dags_dir : Path) (workflow_id : string) : Path :=
  dags_dir // "migration_state" // (workflow_id +:+ ".yaml").

(** * Properties *)

(** ** Paths *)

Lemma path_encode_div (p : Path) (c : string) :
  length (path_encode (p // c)) = S (length (path_encode p)).
Proof. reflexivity. Qed.

Lemma path_div_neq (p : Path) (c : string) : p // c ≠ p.
Proof.
  intros E. apply (f_equal (fun q => length (path_encode q))) in E.
  rewrite path_encode_div in E. lia.
Qed.

Lemma path_div_div_neq (p : Path) (c d : string) : p // c // d ≠ p.
Proof.
  intros E. apply (f_equal (fun q => length (path_encode q))) in E.
  rewrite !path_encode_div in E. lia.
Qed.

Lemma relative_to_self (p : Path) : relative_to p p = Some [].
Proof. destruct p; cbn; rewrite decide_True; done. Qed.

Lemma relative_to_two_below (p : Path) (c d : string) :
  relative_to (p // c // d) p = Some [c; d].
Proof.
  cbn [relative_to].
  rewrite (decide_False (P := p // c // d = p)); [| apply path_div_div_neq].
  rewrite (decide_False (P := p // c = p)); [| apply path_div_neq].
  fold (relative_to p p). rewrite relative_to_self. reflexivity.
Qed.

(** ** The monad *)


Lemma write_text_ok (p : Path) (s : string) (w : World) :
  (write_text p s w).1 = Ok tt.
Proof. reflexivity. Qed.

(** Whatever [body] does, after [try: body finally: write(p, s)] the file
    [p] holds [s]. *)
Lemma try_finally_write_files {A} (body : M A) (p : Path) (s : string) (w : World) :
  files (try_finally body (write_text p s) w).2 !! p = Some s.
Proof.
  unfold try_finally. destruct (body w) as [r w1]. cbn. apply lookup_insert_eq.
Qed.

(** With a [finally] clause that does not raise, the outcome is that of
    the body. *)
Lemma try_finally_write_outcome {A} (body : M A) (p : Path) (s : string) (w : World) :
  (try_finally body (write_text p s) w).1 = (body w).1.
Proof. unfold try_finally. destruct (body w) as [r w1]. reflexivity. Qed.

(** ** The scope of [mark_tasks_migrated] *)

Section Scope.
Variable dags_dir : Path.
Variable reserialize_dags : M unit.
Variable migrated_tasks : gset string.

(** The [with] statement over the generator is the [try]/[finally] it
    spells out: the new document is written, [reserialize_dags] and the
    body run, and the captured text is written back. *)
Lemma scope_inlined (body : M unit) (w : World) (contents : string) :
  files w !! migration_state_file dags_dir = Some contents →
  with_ (mark_tasks_migrated dags_dir reserialize_dags migrated_tasks) body w =
  try_finally
    (write_text (migration_state_file dags_dir) (yaml_dump (document migrated_tasks));;
     reserialize_dags;; body)
    (write_text (migration_state_file dags_dir) contents) w.
Proof.
  intros Hread.
  unfold with_, mark_tasks_migrated, mbind, M_bind, bind, read_text.
  rewrite Hread. unfold try_yield_finally, try_finally, raise.
  cbn [write_text].
  destruct (reserialize_dags _) as [[[] | e] w1]; [| reflexivity].
  destruct (body w1) as [r w2]. reflexivity.
Qed.


(** With a [reserialize_dags] that does nothing, the generator reaches its
    [yield] with the dump of [document] in the file: this is what the body
    of the [with] block finds. *)
Lemma enter_writes_document (w w1 : World) (contents : string)
    (resume : result unit → M unit) :
  files w !! migration_state_file dags_dir = Some contents →
  reserialize_dags = mret tt →
  mark_tasks_migrated dags_dir reserialize_dags migrated_tasks w = (Ok resume, w1) →
  files w1 !! migration_state_file dags_dir = Some (yaml_dump (document migrated_tasks)).
Proof.
  intros Hread Hres Henter. rewrite Hres in Henter.
  unfold mark_tasks_migrated, mbind, M_bind, bind, read_text in Henter.
  rewrite Hread in Henter. unfold try_yield_finally in Henter. cbn in Henter.
  injection Henter as _ <-. cbn. apply lookup_insert_eq.
Qed.

End Scope.

(** ** The document the fixture writes *)

Lemma elements_all_tasks : elements all_tasks ≡ₚ dag_task_ids.
Proof.
  apply NoDup_Permutation.
  - apply NoDup_elements.
  - unfold dag_task_ids. compute_done.
  - intros task. rewrite elem_of_elements. unfold all_tasks, dag_task_ids.
    rewrite !elem_of_union, !elem_of_singleton, !elem_of_cons, elem_of_nil.
    tauto.
Qed.

Lemma elem_of_all_tasks (task : string) :
  task ∈ all_tasks ↔
  task = "load_raw_customers" ∨ task = "build_dbt_models" ∨ task = "export_customers".
Proof. unfold all_tasks. rewrite !elem_of_union, !elem_of_singleton. tauto. Qed.

Lemma entry_record_task_entry (migrated_tasks : gset string) (task : string) :
  entry_record (task_entry migrated_tasks task)
  = Some (task, bool_decide (task ∈ migrated_tasks)).
Proof. reflexivity. Qed.

Lemma omap_entry_record (migrated_tasks : gset string) (l : list string) :
  omap entry_record (task_entry migrated_tasks <$> l)
  = (fun task => (task, bool_decide (task ∈ migrated_tasks))) <$> l.
Proof.
  induction l as [| task l IH]; [reflexivity |].
  rewrite !fmap_cons. cbn [omap list_omap].
  rewrite entry_record_task_entry. by rewrite <- IH.
Qed.

(** The records of the written document: one for each element of
    [all_tasks], flagged by membership in the requested set. *)
Lemma document_records_document (migrated_tasks : gset string) :
  document_records (document migrated_tasks)
  = (fun task => (task, bool_decide (task ∈ migrated_tasks))) <$> elements all_tasks.
Proof. unfold document, document_records. cbn. apply omap_entry_record. Qed.

Lemma document_ids (migrated_tasks : gset string) :
  (document_records (document migrated_tasks)).*1 = elements all_tasks.
Proof.
  rewrite document_records_document, <- list_fmap_compose. apply list_fmap_id.
Qed.

Lemma elem_of_document_records (migrated_tasks : gset string) (task : string) (flag : bool) :
  (task, flag) ∈ document_records (document migrated_tasks)
  ↔ task ∈ all_tasks ∧ flag = bool_decide (task ∈ migrated_tasks).
Proof.
  rewrite document_records_document, list_elem_of_fmap. split.
  - intros (t & [= -> ->] & Hin). by apply elem_of_elements in Hin.
  - intros [Hin ->]. exists task. by rewrite elem_of_elements.
Qed.

(** ** Serialising and parsing a state *)

Section RoundTrip.
Import Store.

Lemma append_assoc (s1 s2 s3 : string) : (s1 +:+ s2) +:+ s3 = s1 +:+ (s2 +:+ s3).
Proof.
  induction s1 as [| c s1 IH]; [reflexivity |].
  change (String c ((s1 +:+ s2) +:+ s3) = String c (s1 +:+ (s2 +:+ s3))).
  by rewrite IH.
Qed.

Lemma unlines_cons (l : string) (ls : list string) :
  unlines (l :: ls) = l +:+ newline +:+ unlines ls.
Proof.
  unfold unlines. destruct ls as [| l' ls]; cbn; [reflexivity |].
  by rewrite append_assoc.
Qed.

Lemma split_lines_String (c : ascii) (s : string) :
  split_lines (String c s) =
  if Ascii.eqb c "010"%char then EmptyString :: split_lines s
  else match split_lines s with
       | [] => [String c EmptyString]
       | l :: ls => String c l :: ls
       end.
Proof. reflexivity. Qed.

Lemma split_lines_line (l rest : string) :
  one_line l = true →
  split_lines (l +:+ newline +:+ rest) = l :: split_lines rest.
Proof.
  induction l as [| c l IH]; intros Hl; [reflexivity |].
  cbn in Hl. apply andb_true_iff in Hl as [Hc Hl].
  apply negb_true_iff in Hc.
  change (String c l +:+ newline +:+ rest) with (String c (l +:+ newline +:+ rest)).
  rewrite split_lines_String, Hc, (IH Hl). reflexivity.
Qed.

(** [splitlines] undoes [unlines] on one-line texts. *)
Lemma split_lines_unlines (ls : list string) :
  Forall (fun l => one_line l = true) ls →
  split_lines (unlines ls) = ls.
Proof.
  induction 1 as [| l ls Hl _ IH]; [reflexivity |].
  by rewrite unlines_cons, split_lines_line, IH.
Qed.

Lemma one_line_app (s1 s2 : string) :
  one_line (s1 +:+ s2) = one_line s1 && one_line s2.
Proof.
  induction s1 as [| c s1 IH]; [reflexivity |].
  simpl. rewrite IH. by rewrite andb_assoc.
Qed.

Lemma hang_record_entry (r : MigrationRecord) :
  hang (yaml_lines (record_entry r)) = record_lines r.
Proof. reflexivity. Qed.

Lemma flat_map_hang_record_entry (records : list MigrationRecord) :
  flat_map (fun item => hang (yaml_lines item)) (record_entry <$> records)
  = flat_map record_lines records.
Proof.
  induction records as [| r records IH]; [reflexivity |].
  rewrite fmap_cons. cbn [flat_map]. by rewrite IH, hang_record_entry.
Qed.

Lemma yaml_lines_state_document (state : MigrationState) :
  yaml_lines (state_document state) =
  match tasks state with
  | [] => ["tasks: []"]
  | records => "tasks:" :: flat_map record_lines records
  end.
Proof.
  destruct state as [[| r records]]; [reflexivity |].
  unfold state_document. cbn [tasks].
  rewrite <- flat_map_hang_record_entry, fmap_cons.
  set (items := record_entry r :: (record_entry <$> records)).
  transitivity (("tasks:" :: yaml_lines (PyList items)) ++ []);
    [reflexivity | apply app_nil_r].
Qed.

Lemma parse_records_record_lines (records : list MigrationRecord) :
  parse_records (flat_map record_lines records) = Some records.
Proof.
  induction records as [| [id flag] records IH]; [reflexivity |].
  cbn [flat_map record_lines app task_id migrated parse_records].
  rewrite IH. by destruct flag.
Qed.

Lemma one_line_record_lines (records : list MigrationRecord) :
  Forall (fun id => one_line id = true) (task_id <$> records) →
  Forall (fun l => one_line l = true) (flat_map record_lines records).
Proof.
  induction records as [| [id flag] records IH]; intros Hids; [constructor |].
  rewrite fmap_cons in Hids. apply Forall_cons in Hids as [Hid Hids].
  cbn [flat_map record_lines app task_id migrated].
  cbn [task_id] in Hid.
  constructor; [rewrite one_line_app; by rewrite Hid |].
  constructor; [by destruct flag | by apply IH].
Qed.

(** Parsing recovers the records of a serialised state, in their order,
    when the task ids are one-line texts. *)
Lemma parse_document_serialize (state : MigrationState) :
  Forall (fun id => one_line id = true) (task_ids state) →
  parse_document (serialize state) = Some (tasks state).
Proof.
  intros Hids.
  assert (Hdump : serialize state = unlines (yaml_lines (state_document state)))
    by reflexivity.
  unfold parse_document. rewrite Hdump, yaml_lines_state_document.
  destruct state as [[| r records]]; [reflexivity |].
  cbn [tasks]. rewrite split_lines_unlines.
  - change (String.eqb "tasks:" "tasks:") with true. cbv iota.
    apply parse_records_record_lines.
  - constructor; [reflexivity |]. by apply one_line_record_lines.
Qed.

Lemma parse_state_serialize (state : MigrationState) :
  NoDup (task_ids state) →
  Forall (fun id => one_line id = true) (task_ids state) →
  parse_state (serialize state) = inr state.
Proof.
  intros Hnodup Hids. unfold parse_state.
  rewrite parse_document_serialize by done.
  rewrite decide_True by done. by destruct state.
Qed.

Lemma one_line_all_tasks (task : string) :
  task ∈ all_tasks → one_line task = true.
Proof. rewrite elem_of_all_tasks. by intros [-> | [-> | ->]]. Qed.

Lemma document_written_state (migrated_tasks : gset string) :
  document migrated_tasks = state_document (written_state migrated_tasks).
Proof.
  unfold document, state_document, written_state. cbn [tasks].
  by rewrite <- list_fmap_compose.
Qed.

(** Read back as a Python value, the dictionary of a state lists its
    records, whatever the task ids are. *)
Lemma document_records_state_document (state : MigrationState) :
  document_records (state_document state)
  = (fun r => (task_id r, migrated r)) <$> tasks state.
Proof.
  unfold state_document, document_records. cbn.
  induction (tasks state) as [| r records IH]; [reflexivity |].
  rewrite !fmap_cons. cbn [omap list_omap].
  change (entry_record (record_entry r)) with (Some (task_id r, migrated r)).
  by rewrite <- IH.
Qed.

Lemma task_ids_written_state (migrated_tasks : gset string) :
  task_ids (written_state migrated_tasks) = elements all_tasks.
Proof.
  unfold task_ids, written_state. cbn [tasks].
  rewrite <- list_fmap_compose. apply list_fmap_id.
Qed.

(** The text the fixture writes parses to the state it expresses. *)
Lemma parse_state_document (migrated_tasks : gset string) :
  parse_state (yaml_dump (document migrated_tasks))
  = inr (written_state migrated_tasks).
Proof.
  rewrite document_written_state.
  change (yaml_dump (state_document ?st)) with (serialize st).
  apply parse_state_serialize.
  - rewrite task_ids_written_state. apply NoDup_elements.
  - rewrite task_ids_written_state. apply Forall_forall. intros task Hin.
    apply one_line_all_tasks. by apply elem_of_elements.
Qed.

End RoundTrip.

(** ** The store's query and decision rule *)

Section Query.
Import Store.

Lemma is_migrated_cons (r : MigrationRecord) (records : list MigrationRecord) (id : string) :
  is_migrated (mkState (r :: records)) id =
  if bool_decide (task_id r = id) then migrated r
  else is_migrated (mkState records) id.
Proof. unfold is_migrated. cbn. by case_bool_decide. Qed.

Lemma is_migrated_absent (state : MigrationState) (id : string) :
  id ∉ task_ids state → is_migrated state id = false.
Proof.
  destruct state as [records]. unfold task_ids. cbn [tasks].
  induction records as [| r records IH]; intros Hnotin; [reflexivity |].
  rewrite fmap_cons, not_elem_of_cons in Hnotin. destruct Hnotin as [Hne Hnotin].
  rewrite is_migrated_cons, bool_decide_eq_false_2 by done. by apply IH.
Qed.

Lemma is_migrated_stored (state : MigrationState) (id : string) (flag : bool) :
  NoDup (task_ids state) →
  mkRecord id flag ∈ tasks state →
  is_migrated state id = flag.
Proof.
  destruct state as [records]. unfold task_ids. cbn [tasks].
  induction records as [| r records IH]; intros Hnodup Hin.
  - by apply elem_of_nil in Hin.
  - rewrite fmap_cons in Hnodup. apply NoDup_cons in Hnodup as [Hfresh Hnodup].
    rewrite is_migrated_cons. apply elem_of_cons in Hin as [<- | Hin].
    + by rewrite bool_decide_eq_true_2.
    + rewrite bool_decide_eq_false_2; [by apply IH |].
      intros Heq. apply Hfresh. rewrite Heq.
      by apply (list_elem_of_fmap_2 task_id) in Hin.
Qed.

(** Read through the store's query, the fixture's document marks as
    migrated the requested tasks that are known, and no other. *)
Lemma is_migrated_written_state (migrated_tasks : gset string) (task : string) :
  is_migrated (written_state migrated_tasks) task
  = bool_decide (task ∈ migrated_tasks ∧ task ∈ all_tasks).
Proof.
  destruct (decide (task ∈ all_tasks)) as [Hknown | Hunknown].
  - rewrite (is_migrated_stored _ task (bool_decide (task ∈ migrated_tasks))).
    + apply bool_decide_ext. tauto.
    + rewrite task_ids_written_state. apply NoDup_elements.
    + unfold written_state. cbn [tasks]. apply list_elem_of_fmap.
      exists task. by rewrite elem_of_elements.
  - rewrite is_migrated_absent.
    + symmetry. apply bool_decide_eq_false_2. tauto.
    + by rewrite task_ids_written_state, elem_of_elements.
Qed.


End Query.

(** ** The scope on disk *)

Section PosixScope.
Variable dags_dir : Path.
Variable reserialize_dags : Posix.IO unit.
Variable migrated_tasks : gset string.


Lemma posix_write_text_ok (p : Path) (s : string) (disk : Posix.Disk) :
  Posix.open_error p disk = None →
  Posix.write_text p s disk
  = (Ok tt, {| Posix.dirs := Posix.dirs disk; Posix.data := <[p := s]> (Posix.data disk) |}).
Proof. intros Hopen. unfold Posix.write_text. by rewrite Hopen. Qed.

(** On disk too the [with] statement is the [try]/[finally] it spells out;
    the text captured is the content of the file with its line endings
    translated. *)
Lemma posix_scope_inlined (body : Posix.IO unit) (disk : Posix.Disk) (raw : string) :
  Posix.data disk !! migration_state_file dags_dir = Some raw →
  Posix.open_error (migration_state_file dags_dir) disk = None →
  Posix.with_ (Posix.mark_tasks_migrated dags_dir reserialize_dags migrated_tasks) body disk
  = Posix.try_finally (reserialize_dags;; body)
      (Posix.write_text (migration_state_file dags_dir) (Posix.universal_newlines raw))
      (Posix.write_text (migration_state_file dags_dir)
         (yaml_dump (document migrated_tasks)) disk).2.
Proof.
  intros Hraw Hopen.
  unfold Posix.with_, Posix.mark_tasks_migrated, mbind, Posix.IO_bind, Posix.bind.
  unfold Posix.read_text. rewrite Hopen, Hraw.
  unfold Posix.try_yield_finally, Posix.try_finally, Posix.raise.
  rewrite !(posix_write_text_ok _ (yaml_dump (document migrated_tasks)) _ Hopen).
  cbn [snd].
  destruct (reserialize_dags _) as [[[] | e] disk1].
  - destruct (body disk1) as [r disk2]. reflexivity.
  - by destruct (Posix.write_text _ _ disk1) as [[[] | e'] disk2].
Qed.

End PosixScope.

Lemma universal_newlines_no_cr (raw : string) :
  occurs "013"%char raw = false → Posix.universal_newlines raw = raw.
Proof.
  induction raw as [| c raw IH]; [done |].
  cbn [occurs Posix.universal_newlines]. rewrite orb_false_iff. intros [Hc Hraw].
  rewrite Hc. by rewrite IH.
Qed.

(** ** States and the fixture's writer *)




Lemma append_inj_l (s1 s2 suffix : string) :
  s1 +:+ suffix = s2 +:+ suffix → s1 = s2.
Proof.
  intros Heq. apply (f_equal String.list_ascii_of_string) in Heq.
  assert (Happ : ∀ a b, String.list_ascii_of_string (a +:+ b)
                        = String.list_ascii_of_string a ++ String.list_ascii_of_string b).
  { intros a b. induction a as [| c a IH]; [reflexivity |].
    change (String c a +:+ b) with (String c (a +:+ b)).
    cbn [String.list_ascii_of_string app]. by rewrite IH. }
  rewrite !Happ in Heq. apply app_inv_tail in Heq.
  rewrite <- (String.string_of_list_ascii_of_string s1),
          <- (String.string_of_list_ascii_of_string s2).
  by rewrite Heq.
Qed.

Lemma elements_all_tasks_cons :
  ∃ task tasks, elements all_tasks = task :: tasks.
Proof.
  destruct (elements all_tasks) as [| task tasks] eqn:E; [| by eauto].
  pose proof elements_all_tasks as Hperm. rewrite E in Hperm.
  by apply Permutation_nil_l in Hperm.
Qed.

Lemma record_lines_of_tasks (migrated_tasks : gset string) (l : list string) :
  flat_map Store.record_lines
    ((fun task => Store.mkRecord task (bool_decide (task ∈ migrated_tasks))) <$> l)
  = flat_map (fun task =>
                ["- id: " +:+ task;
                 "  migrated: " +:+
                   (if bool_decide (task ∈ migrated_tasks) then "true" else "false")]) l.
Proof.
  induction l as [| t l IH]; [reflexivity |].
  rewrite fmap_cons. cbn [flat_map]. by rewrite IH.
Qed.

(** The text of the dumped document, line by line. *)
Lemma document_text (migrated_tasks : gset string) :
  yaml_dump (document migrated_tasks)
  = unlines ("tasks:" ::
             flat_map (fun task =>
                         ["- id: " +:+ task;
                          "  migrated: " +:+
                            (if bool_decide (task ∈ migrated_tasks) then "true" else "false")])
               (elements all_tasks)).
Proof.
  rewrite document_written_state, <- record_lines_of_tasks.
  change (yaml_dump (Store.state_document ?st))
    with (unlines (yaml_lines (Store.state_document st))).
  rewrite yaml_lines_state_document. unfold Store.written_state. cbn [Store.tasks].
  destruct elements_all_tasks_cons as (task & tasks & Helements).
  rewrite Helements. reflexivity.
Qed.

(** The document is in the file when [reserialize_dags] starts. *)
Lemma scope_document_written
    (dags_dir : Path) (reserialize_dags body : M unit)
    (migrated_tasks : gset string) (w : World) (contents : string) :
  files w !! migration_state_file dags_dir = Some contents →
  with_ (mark_tasks_migrated dags_dir reserialize_dags migrated_tasks) body w
  = try_finally (reserialize_dags;; body)
      (write_text (migration_state_file dags_dir) contents)
      (write_text (migration_state_file dags_dir) (yaml_dump (document migrated_tasks)) w).2.
Proof.
  intros Hread. rewrite (scope_inlined _ _ _ _ _ _ Hread).
  unfold try_finally, mbind, M_bind, bind. reflexivity.
Qed.

(** The scope on worlds is the scope on disks, for a state file without
    carriage return that stays openable: with procedures that go together,
    the two runs end the same way, in a disk and its text view. *)
Lemma scope_text_view
    (dags_dir : Path) (reserialize_disk body_disk : Posix.IO unit)
    (reserialize_dags body : M unit) (migrated_tasks : gset string)
    (disk : Posix.Disk) (w : World) (contents : string) :
  text_view disk w →
  files w !! migration_state_file dags_dir = Some contents →
  occurs "013"%char contents = false →
  Posix.open_error (migration_state_file dags_dir) disk = None →
  simulates (migration_state_file dags_dir) reserialize_disk reserialize_dags →
  simulates (migration_state_file dags_dir) body_disk body →
  (Posix.with_ (Posix.mark_tasks_migrated dags_dir reserialize_disk migrated_tasks)
     body_disk disk).1
  = (with_ (mark_tasks_migrated dags_dir reserialize_dags migrated_tasks) body w).1
  ∧ text_view
      (Posix.with_ (Posix.mark_tasks_migrated dags_dir reserialize_disk migrated_tasks)
         body_disk disk).2
      (with_ (mark_tasks_migrated dags_dir reserialize_dags migrated_tasks) body w).2.
Proof.
  intros Hview Hread Hcr Hopen Hres Hbody.
  assert (Hraw : Posix.data disk !! migration_state_file dags_dir = Some contents)
    by (by rewrite Hview).
  rewrite (posix_scope_inlined _ _ _ _ _ _ Hraw Hopen), universal_newlines_no_cr by done.
  rewrite (scope_document_written _ _ _ _ _ _ Hread).
  set (file := migration_state_file dags_dir) in *.
  rewrite (posix_write_text_ok _ _ _ Hopen). cbn [snd write_text].
  unfold Posix.try_finally, try_finally, mbind, Posix.IO_bind, M_bind, Posix.bind, bind.
  match goal with |- context [reserialize_disk ?disk0] =>
    match goal with |- context [reserialize_dags ?w0] =>
      destruct (Hres disk0 w0) as (Hout1 & Hview1 & Hopen1);
        [unfold text_view; cbn; by rewrite Hview | exact Hopen |];
      destruct (reserialize_disk disk0) as [r1 disk1];
      destruct (reserialize_dags w0) as [r1' w1]
    end
  end.
  cbn [fst snd] in Hout1, Hview1, Hopen1. subst r1'.
  destruct r1 as [[] | e].
  - destruct (Hbody disk1 w1 Hview1 Hopen1) as (Hout2 & Hview2 & Hopen2).
    destruct (body_disk disk1) as [r2 disk2]. destruct (body w1) as [r2' w2].
    cbn [fst snd] in Hout2, Hview2, Hopen2. subst r2'.
    rewrite (posix_write_text_ok _ _ _ Hopen2). cbn.
    split; [reflexivity |]. unfold text_view. cbn. by rewrite Hview2.
  - rewrite (posix_write_text_ok _ _ _ Hopen1). cbn.
    split; [reflexivity |]. unfold text_view. cbn. by rewrite Hview1.
Qed.

Lemma document_known_part (migrated_tasks : gset string) :
  document (migrated_tasks ∩ all_tasks) = document migrated_tasks.
Proof.
  unfold document.
  enough (Hitems : task_entry (migrated_tasks ∩ all_tasks) <$> elements all_tasks
                   = task_entry migrated_tasks <$> elements all_tasks)
    by (by rewrite Hitems).
  apply list_fmap_ext. intros i task Hi. unfold task_entry.
  apply list_elem_of_lookup_2, elem_of_elements in Hi.
  rewrite (bool_decide_ext (task ∈ migrated_tasks ∩ all_tasks) (task ∈ migrated_tasks));
    [reflexivity |].
  rewrite elem_of_intersection. tauto.
Qed.

Lemma empty_document_not_well_formed : ¬ well_formed_text "tasks: []".
Proof.
  intros (state & Hparse & _ & Hknown).
  assert (Hstate : state = Store.mkState []).
  { assert (Hempty : Store.parse_state "tasks: []" = inr (Store.mkState []))
      by (vm_compute; reflexivity).
    rewrite Hempty in Hparse. by injection Hparse. }
  subst state. specialize (Hknown "load_raw_customers").
  apply elem_of_nil in Hknown; [done |]. unfold dag_task_ids. left.
Qed.

(** ** Claims *)

(** C1. For every migration state and every task identifier, the decision
    rule names one executor: the new orchestrator when [is_migrated] is
    true, the legacy orchestrator when it is false. The new orchestrator
    claims the task exactly when it is migrated, the legacy one exactly
    when it is not, so exactly one of the two claims it. *)
Theorem authority_exactly_one (state : Store.MigrationState) (id : string) :
  Store.authority state id
  = (if Store.is_migrated state id
     then Store.NEW_ORCHESTRATOR else Store.LEGACY_ORCHESTRATOR)
  ∧ Store.claims Store.NEW_ORCHESTRATOR state id = Store.is_migrated state id
  ∧ Store.claims Store.LEGACY_ORCHESTRATOR state id = negb (Store.is_migrated state id)
  ∧ xorb (Store.claims Store.NEW_ORCHESTRATOR state id)
         (Store.claims Store.LEGACY_ORCHESTRATOR state id) = true.
Proof.
  unfold Store.claims, Store.authority.
  destruct (Store.is_migrated state id); repeat split.
Qed.




(** When the body removes the directory of the file, the restoring write
    fails: the scope raises its error and the file is not put back. *)
Example scope_directory_removed :
  let dags_dir := PathOf "/tmp/dags" in
  let file := migration_state_file dags_dir in
  let disk := {| Posix.dirs := {[ dags_dir // "migration_state" ]};
                 Posix.data := {[ file := "tasks: []" ]} |} in
  let after :=
    Posix.with_ (Posix.mark_tasks_migrated dags_dir (mret tt) {[ "export_customers" ]})
      (Posix.rmtree (dags_dir // "migration_state")) disk in
  after.1 = Raise (FileNotFoundError file) ∧ Posix.data after.2 !! file = None.
Proof.
  intros dags_dir file disk after. subst after.
  rewrite (posix_scope_inlined dags_dir (mret tt) {[ "export_customers" ]} _ disk "tasks: []");
    [| apply lookup_singleton_eq | reflexivity].
  vm_compute. split; reflexivity.
Qed.

(** C3. For every requested set, the text the scope writes to the file
    before [reserialize_dags] and the body run is a document that lists
    each known task as migrated exactly when it is in the set, and as not
    migrated exactly when it is not. *)
Theorem document_expresses_requested_set
    (dags_dir : Path) (reserialize_dags body : M unit)
    (migrated_tasks : gset string) (w : World) (contents : string) (task : string) :
  files w !! migration_state_file dags_dir = Some contents →
  task ∈ all_tasks →
  ∃ text state,
    with_ (mark_tasks_migrated dags_dir reserialize_dags migrated_tasks) body w
    = try_finally (reserialize_dags;; body)
        (write_text (migration_state_file dags_dir) contents)
        (write_text (migration_state_file dags_dir) text w).2
    ∧ text = unlines ("tasks:" ::
                      flat_map (fun t =>
                                  ["- id: " +:+ t;
                                   "  migrated: " +:+
                                     (if bool_decide (t ∈ migrated_tasks)
                                      then "true" else "false")])
                        (elements all_tasks))
    ∧ Store.parse_state text = inr state
    ∧ (Store.mkRecord task true ∈ Store.tasks state ↔ task ∈ migrated_tasks)
    ∧ (Store.mkRecord task false ∈ Store.tasks state ↔ task ∉ migrated_tasks).
Proof.
  intros Hread Hknown.
  exists (yaml_dump (document migrated_tasks)), (Store.written_state migrated_tasks).
  split; [by apply scope_document_written |].
  split; [apply document_text |].
  split; [apply parse_state_document |].
  unfold Store.written_state. cbn [Store.tasks]. rewrite !list_elem_of_fmap. split.
  - split.
    + intros (t & [= <- Hflag] & _). symmetry in Hflag.
      by apply bool_decide_eq_true_1 in Hflag.
    + intros Hin. exists task. rewrite elem_of_elements. split; [| done].
      f_equal. symmetry. by apply bool_decide_eq_true_2.
  - split.
    + intros (t & [= <- Hflag] & _). symmetry in Hflag.
      by apply bool_decide_eq_false_1 in Hflag.
    + intros Hnotin. exists task. rewrite elem_of_elements. split; [| done].
      f_equal. symmetry. by apply bool_decide_eq_false_2.
Qed.

Lemma document_expresses_requested_set_witness :
  let dags_dir := PathOf "/tmp/dags" in
  let w := {| files := {[ migration_state_file dags_dir := all_legacy_text ]};
              writes := [] |} in
  ∃ text state,
    with_ (mark_tasks_migrated dags_dir (mret tt) {[ "export_customers" ]})
          (observe dags_dir) w
    = try_finally ((mret tt : M unit);; observe dags_dir)
        (write_text (migration_state_file dags_dir) all_legacy_text)
        (write_text (migration_state_file dags_dir) text w).2
    ∧ text = unlines ("tasks:" ::
                      flat_map (fun t =>
                                  ["- id: " +:+ t;
                                   "  migrated: " +:+
                                     (if bool_decide (t ∈ ({[ "export_customers" ]} : gset string))
                                      then "true" else "false")])
                        (elements all_tasks))
    ∧ Store.parse_state text = inr state
    ∧ (Store.mkRecord "export_customers" true ∈ Store.tasks state
       ↔ "export_customers" ∈ ({[ "export_customers" ]} : gset string))
    ∧ (Store.mkRecord "export_customers" false ∈ Store.tasks state
       ↔ "export_customers" ∉ ({[ "export_customers" ]} : gset string)).
Proof.
  intros dags_dir w. apply document_expresses_requested_set.
  - apply lookup_singleton_eq.
  - vm_compute. reflexivity.
Defined.




(** C5. [is_migrated] is a total function to [bool]. On a state without
    duplicate ids it returns the stored flag of the record with the given
    id, and it returns [false] when no record has that id. *)
Theorem is_migrated_total (state : Store.MigrationState) (id : string) :
  NoDup (Store.task_ids state) →
  (∀ flag, Store.mkRecord id flag ∈ Store.tasks state →
           Store.is_migrated state id = flag)
  ∧ (id ∉ Store.task_ids state → Store.is_migrated state id = false).
Proof.
  intros Hnodup. split.
  - intros flag. by apply is_migrated_stored.
  - apply is_migrated_absent.
Qed.

Lemma is_migrated_total_witness :
  (∀ flag,
     Store.mkRecord "new_task" flag
       ∈ Store.tasks (Store.written_state {[ "build_dbt_models" ]}) →
     Store.is_migrated (Store.written_state {[ "build_dbt_models" ]}) "new_task" = flag)
  ∧ ("new_task" ∉ Store.task_ids (Store.written_state {[ "build_dbt_models" ]}) →
     Store.is_migrated (Store.written_state {[ "build_dbt_models" ]}) "new_task" = false).
Proof. apply is_migrated_total. compute_done. Defined.




(** C7. For every workflow, the migration state document is the file named
    after the workflow's identifier, with the extension [.yaml], in the
    [migration_state] directory of the dags directory, and two workflows
    have two documents. The file of the fixture is the document of the
    workflow [rebuild_customers_list] that [migrate.py] declares: relative
    to the dags directory, [migration_state/rebuild_customers_list.yaml]. *)
Theorem migration_state_file_path (dags_dir : Path) (workflow_id : string) :
  relative_to (state_document_path dags_dir workflow_id) dags_dir
  = Some ["migration_state"; workflow_id +:+ ".yaml"]
  ∧ (∀ other, state_document_path dags_dir workflow_id = state_document_path dags_dir other →
              workflow_id = other)
  ∧ migration_state_file dags_dir = state_document_path dags_dir dag_id
  ∧ relative_to (migration_state_file dags_dir) dags_dir
    = Some ["migration_state"; "rebuild_customers_list.yaml"].
Proof.
  split; [apply relative_to_two_below |].
  split; [| split; [reflexivity | apply relative_to_two_below]].
  intros other [= Heq]. by apply append_inj_l in Heq.
Qed.

(** C8. For every requested set, the text the scope writes to the file is
    a document whose task ids are the three known ones, each once, and no
    other: a requested id that is not a known task has no record. Such an
    id changes nothing else either: the scope runs as it does for the
    request without it, so no error comes of it. *)
Theorem unknown_tasks_ignored
    (dags_dir : Path) (reserialize_dags body : M unit)
    (migrated_tasks : gset string) (w : World) (contents : string) :
  files w !! migration_state_file dags_dir = Some contents →
  ∃ text state,
    with_ (mark_tasks_migrated dags_dir reserialize_dags migrated_tasks) body w
    = try_finally (reserialize_dags;; body)
        (write_text (migration_state_file dags_dir) contents)
        (write_text (migration_state_file dags_dir) text w).2
    ∧ text = unlines ("tasks:" ::
                      flat_map (fun t =>
                                  ["- id: " +:+ t;
                                   "  migrated: " +:+
                                     (if bool_decide (t ∈ migrated_tasks)
                                      then "true" else "false")])
                        (elements all_tasks))
    ∧ Store.parse_state text = inr state
    ∧ Store.task_ids state
      ≡ₚ ["load_raw_customers"; "build_dbt_models"; "export_customers"]
    ∧ (∀ task, task ∈ Store.task_ids state → task ∈ all_tasks)
    ∧ with_ (mark_tasks_migrated dags_dir reserialize_dags migrated_tasks) body w
      = with_ (mark_tasks_migrated dags_dir reserialize_dags (migrated_tasks ∩ all_tasks))
              body w.
Proof.
  intros Hread.
  exists (yaml_dump (document migrated_tasks)), (Store.written_state migrated_tasks).
  split; [by apply scope_document_written |].
  split; [apply document_text |].
  split; [apply parse_state_document |].
  rewrite task_ids_written_state.
  split; [apply elements_all_tasks |].
  split; [intros task; by rewrite elem_of_elements |].
  unfold mark_tasks_migrated. by rewrite document_known_part.
Qed.

Lemma unknown_tasks_ignored_witness :
  let dags_dir := PathOf "/tmp/dags" in
  let w := {| files := {[ migration_state_file dags_dir := "tasks: []" ]};
              writes := [] |} in
  ∃ text state,
    with_ (mark_tasks_migrated dags_dir (mret tt) {[ "new_task"; "export_customers" ]})
          (mret tt) w
    = try_finally ((mret tt : M unit);; (mret tt : M unit))
        (write_text (migration_state_file dags_dir) "tasks: []")
        (write_text (migration_state_file dags_dir) text w).2
    ∧ text = unlines ("tasks:" ::
                      flat_map (fun t =>
                                  ["- id: " +:+ t;
                                   "  migrated: " +:+
                                     (if bool_decide
                                           (t ∈ ({[ "new_task"; "export_customers" ]} : gset string))
                                      then "true" else "false")])
                        (elements all_tasks))
    ∧ Store.parse_state text = inr state
    ∧ Store.task_ids state
      ≡ₚ ["load_raw_customers"; "build_dbt_models"; "export_customers"]
    ∧ (∀ task, task ∈ Store.task_ids state → task ∈ all_tasks)
    ∧ with_ (mark_tasks_migrated dags_dir (mret tt) {[ "new_task"; "export_customers" ]})
            (mret tt) w
      = with_ (mark_tasks_migrated dags_dir (mret tt)
                 ({[ "new_task"; "export_customers" ]} ∩ all_tasks))
              (mret tt) w.
Proof.
  intros dags_dir w. apply unknown_tasks_ignored. apply lookup_singleton_eq.
Defined.

(** C9. When the migration state file cannot be read, the scope raises the
    read's error and nothing else happens: no write is made, neither
    [reserialize_dags] nor the body runs, and the file system is as it
    was. *)
Theorem scope_unreadable_untouched
    (dags_dir : Path) (reserialize_dags body : M unit)
    (migrated_tasks : gset string) (w : World) :
  files w !! migration_state_file dags_dir = None →
  with_ (mark_tasks_migrated dags_dir reserialize_dags migrated_tasks) body w
  = (Raise (FileNotFoundError (migration_state_file dags_dir)), w).
Proof.
  intros Hread.
  unfold with_, mark_tasks_migrated, mbind, M_bind, bind, read_text.
  by rewrite Hread.
Qed.

Lemma scope_unreadable_untouched_witness :
  with_ (mark_tasks_migrated (PathOf "/tmp/dags") (mret tt) {[ "export_customers" ]})
        (write_text (PathOf "/tmp/other") "body ran")
        {| files := ∅; writes := [] |}
  = (Raise (FileNotFoundError (migration_state_file (PathOf "/tmp/dags"))),
     {| files := ∅; writes := [] |}).
Proof. apply scope_unreadable_untouched. reflexivity. Defined.

(** C10. [dbt_project_path] returns a path only when
    [TUTORIAL_DBT_PROJECT_DIR] is set to a non-empty value, and the path is
    then [Path] of that value; when the variable is unset or empty it
    raises the assertion error. *)
Theorem dbt_project_path_requires_env (environ : gmap string string) :
  (∀ p, dbt_project_path environ = Ok p ↔
        ∃ v, environ !! "TUTORIAL_DBT_PROJECT_DIR" = Some v ∧ v ≠ "" ∧ p = PathOf v)
  ∧ (dbt_project_path environ
     = Raise (AssertionError "TUTORIAL_DBT_PROJECT_DIR must be set") ↔
     environ !! "TUTORIAL_DBT_PROJECT_DIR" = None
     ∨ environ !! "TUTORIAL_DBT_PROJECT_DIR" = Some "").
Proof.
  unfold dbt_project_path, getenv.
  destruct (environ !! "TUTORIAL_DBT_PROJECT_DIR") as [[| c v] |]; cbn.
  - split; [| by split; [right |]].
    intros p. split; [done |]. by intros (v & [= <-] & Hne & _).
  - split.
    + intros p. split.
      * intros [= <-]. by eexists.
      * by intros (v' & [= <-] & _ & ->).
    + split; [done | by intros [|]].
  - split; [| by split; [left |]].
    intros p. split; [done |]. by intros (v & [=] & _).
Qed.

(** ** The scenarios of the specification *)

Section Scenarios.
Import Store.

Example all_legacy_parses : parse_state all_legacy_text = inr all_legacy.
Proof. vm_compute. reflexivity. Qed.

Example all_legacy_authority :
  authority all_legacy <$> dag_task_ids
  = [LEGACY_ORCHESTRATOR; LEGACY_ORCHESTRATOR; LEGACY_ORCHESTRATOR].
Proof. reflexivity. Qed.

Example one_migrated_authority :
  authority (mkState [mkRecord "load_raw_customers" false;
                      mkRecord "build_dbt_models" true;
                      mkRecord "export_customers" false]) <$> dag_task_ids
  = [LEGACY_ORCHESTRATOR; NEW_ORCHESTRATOR; LEGACY_ORCHESTRATOR].
Proof. reflexivity. Qed.

Example absent_task_authority : authority all_legacy "new_task" = LEGACY_ORCHESTRATOR.
Proof. reflexivity. Qed.

Example duplicate_id_refused :
  parse_state (unlines ["tasks:";
                        "- id: export_customers"; "  migrated: false";
                        "- id: export_customers"; "  migrated: true"])
  = inl MalformedStateError.
Proof. vm_compute. reflexivity. Qed.

Example scope_export_customers :
  let dags_dir := PathOf "/tmp/dags" in
  let w := {| files := {[ migration_state_file dags_dir := all_legacy_text ]};
              writes := [] |} in
  let after := (with_ (mark_tasks_migrated dags_dir (mret tt) {[ "export_customers" ]})
                      (observe dags_dir) w) in
  after.1 = Ok tt
  ∧ files after.2 !! (dags_dir // "observed") = Some "true"
  ∧ files after.2 !! migration_state_file dags_dir = Some all_legacy_text.
Proof. vm_compute. repeat split. Qed.

End Scenarios.

(** * Further properties *)

(** ** The scope of [mark_tasks_migrated], continued *)

Section ScopeMore.
Variable dags_dir : Path.
Variable reserialize_dags : M unit.
Variable migrated_tasks : gset string.


Lemma scope_unreadable_world (body : M unit) (w : World) :
  files w !! migration_state_file dags_dir = None →
  (with_ (mark_tasks_migrated dags_dir reserialize_dags migrated_tasks) body w).2 = w.
Proof.
  intros Hread.
  unfold with_, mark_tasks_migrated, mbind, M_bind, bind, read_text.
  by rewrite Hread.
Qed.

(** While the migration state file is readable, a file other than it that
    [reserialize_dags] and the body leave alone is left alone by the
    scope. *)
Lemma scope_frame_readable (body : M unit) (w : World) (p : Path) (contents : string) :
  files w !! migration_state_file dags_dir = Some contents →
  p ≠ migration_state_file dags_dir →
  preserves p reserialize_dags →
  preserves p body →
  files (with_ (mark_tasks_migrated dags_dir reserialize_dags migrated_tasks) body w).2 !! p
  = files w !! p.
Proof.
  intros Hread Hp Hres Hbody.
  rewrite (scope_inlined _ _ _ _ _ _ Hread).
  unfold try_finally, mbind, M_bind, bind. cbn [write_text].
  match goal with |- context [reserialize_dags ?w0] =>
    specialize (Hres w0); destruct (reserialize_dags w0) as [[[] | e] w1] end;
    cbn [snd files] in Hres.
  - specialize (Hbody w1). destruct (body w1) as [r w2]. cbn [snd] in Hbody.
    cbn. rewrite lookup_insert_ne by done.
    rewrite Hbody, Hres. by apply lookup_insert_ne.
  - cbn. rewrite lookup_insert_ne by done.
    rewrite Hres. by apply lookup_insert_ne.
Qed.

End ScopeMore.

(** X1. The scope never swallows an error. Once the file is read, its
    outcome is that of [reserialize_dags] followed by the body, unless the
    restoring write cannot open the file (its directory was removed, or the
    path was made a directory): the error of that write then takes the
    place of the outcome. So the scope returns only if [reserialize_dags]
    and the body return, and it raises their error whenever the file is
    still openable at the end. *)
Theorem scope_never_swallows
    (dags_dir : Path) (reserialize_dags body : Posix.IO unit)
    (migrated_tasks : gset string) (disk : Posix.Disk) (raw : string) :
  Posix.data disk !! migration_state_file dags_dir = Some raw →
  Posix.open_error (migration_state_file dags_dir) disk = None →
  (Posix.with_ (Posix.mark_tasks_migrated dags_dir reserialize_dags migrated_tasks)
     body disk).1
  = (let '(outcome, disk2) :=
       (reserialize_dags;; body)
         (Posix.write_text (migration_state_file dags_dir)
            (yaml_dump (document migrated_tasks)) disk).2 in
     match Posix.open_error (migration_state_file dags_dir) disk2 with
     | Some e => Raise e
     | None => outcome
     end).
Proof.
  intros Hraw Hopen. rewrite (posix_scope_inlined _ _ _ _ _ _ Hraw Hopen).
  unfold Posix.try_finally.
  destruct ((reserialize_dags;; body) _) as [outcome disk2].
  unfold Posix.write_text. by destruct (Posix.open_error _ disk2).
Qed.

Lemma scope_never_swallows_witness :
  let dags_dir := PathOf "/tmp/dags" in
  let file := migration_state_file dags_dir in
  let disk := {| Posix.dirs := {[ dags_dir // "migration_state" ]};
                 Posix.data := {[ file := "tasks: []" ]} |} in
  let failing : Posix.IO unit := Posix.raise (Exception "test failed") in
  (Posix.with_ (Posix.mark_tasks_migrated dags_dir (mret tt) {[ "export_customers" ]})
     failing disk).1
  = (let '(outcome, disk2) :=
       ((mret tt : Posix.IO unit);; failing)
         (Posix.write_text file (yaml_dump (document {[ "export_customers" ]})) disk).2 in
     match Posix.open_error file disk2 with
     | Some e => Raise e
     | None => outcome
     end).
Proof.
  intros dags_dir file disk failing.
  apply (scope_never_swallows dags_dir (mret tt) failing _ disk "tasks: []").
  - apply lookup_singleton_eq.
  - reflexivity.
Defined.



(** X3. The scope touches no other file: a file other than the migration
    state file that [reserialize_dags] and the body leave alone is, after
    the scope, as it was before, whether or not the state file could be
    read. *)
Theorem scope_leaves_other_files
    (dags_dir : Path) (reserialize_dags body : M unit)
    (migrated_tasks : gset string) (w : World) (p : Path) :
  p ≠ migration_state_file dags_dir →
  preserves p reserialize_dags →
  preserves p body →
  files (with_ (mark_tasks_migrated dags_dir reserialize_dags migrated_tasks) body w).2 !! p
  = files w !! p.
Proof.
  intros Hp Hres Hbody.
  destruct (files w !! migration_state_file dags_dir) as [contents |] eqn:Hread.
  - by apply (scope_frame_readable _ _ _ _ _ _ contents).
  - by rewrite scope_unreadable_world.
Qed.

Lemma scope_leaves_other_files_witness :
  let dags_dir := PathOf "/tmp/dags" in
  let w := {| files := {[ migration_state_file dags_dir := "tasks: []" ]};
              writes := [] |} in
  files (with_ (mark_tasks_migrated dags_dir (mret tt) {[ "export_customers" ]})
               (mret tt) w).2 !! (dags_dir // "rebuild_customers_list.py")
  = files w !! (dags_dir // "rebuild_customers_list.py").
Proof.
  intros dags_dir w. apply scope_leaves_other_files.
  - discriminate.
  - intros w'. reflexivity.
  - intros w'. reflexivity.
Defined.





(** ** The written text *)

Lemma document_eq_iff (m1 m2 : gset string) :
  document m1 = document m2 ↔ ∀ task, task ∈ all_tasks → (task ∈ m1 ↔ task ∈ m2).
Proof.
  split.
  - intros Hdoc task Hknown.
    assert (Hrec : ∀ flag, (task, flag) ∈ document_records (document m1)
                           ↔ (task, flag) ∈ document_records (document m2))
      by (by rewrite Hdoc).
    specialize (Hrec true). rewrite !elem_of_document_records in Hrec.
    destruct Hrec as [H12 H21]. split; intros Hin.
    + destruct H12 as [_ Hflag];
        [split; [done | symmetry; by apply bool_decide_eq_true_2] |].
      symmetry in Hflag. by apply bool_decide_eq_true_1 in Hflag.
    + destruct H21 as [_ Hflag];
        [split; [done | symmetry; by apply bool_decide_eq_true_2] |].
      symmetry in Hflag. by apply bool_decide_eq_true_1 in Hflag.
  - intros Hsame. unfold document.
    enough (Hitems : task_entry m1 <$> elements all_tasks
                     = task_entry m2 <$> elements all_tasks) by (by rewrite Hitems).
    apply list_fmap_ext. intros i task Hi. unfold task_entry.
    rewrite (bool_decide_ext (task ∈ m1) (task ∈ m2)); [reflexivity |].
    apply Hsame, elem_of_elements. by apply list_elem_of_lookup_2 in Hi.
Qed.

(** X6. The text written to the file tells the requests apart exactly as
    far as the known tasks go: two requested sets give the same text if and
    only if they contain the same known tasks. *)
Theorem written_text_determines_request (m1 m2 : gset string) :
  yaml_dump (document m1) = yaml_dump (document m2)
  ↔ ∀ task, task ∈ all_tasks → (task ∈ m1 ↔ task ∈ m2).
Proof.
  rewrite <- document_eq_iff. split; [| intros Hdoc; rewrite Hdoc; reflexivity].
  intros Htext.
  assert (Hst : inr (Store.written_state m1)
                = (inr (Store.written_state m2) : Store.StoreError + Store.MigrationState)).
  { rewrite <- (parse_state_document m1), <- (parse_state_document m2).
    rewrite Htext. reflexivity. }
  assert (Hst' : Store.written_state m1 = Store.written_state m2)
    by exact (f_equal (fun r => match r with inr st => st | inl _ => Store.written_state m1 end) Hst).
  rewrite (document_written_state m1), (document_written_state m2), Hst'.
  reflexivity.
Qed.

(** X7. The text written to the file: a [tasks:] line, then for each task
    of [all_tasks] an [- id:] line with its name and a [migrated:] line
    with [true] or [false], each line ended by a newline. *)
Theorem written_text_layout (migrated_tasks : gset string) :
  yaml_dump (document migrated_tasks)
  = unlines ("tasks:" ::
             flat_map (fun task =>
                         ["- id: " +:+ task;
                          "  migrated: " +:+
                            (if bool_decide (task ∈ migrated_tasks) then "true" else "false")])
               (elements all_tasks)).
Proof.
  rewrite document_written_state, <- record_lines_of_tasks.
  change (yaml_dump (Store.state_document ?st))
    with (unlines (yaml_lines (Store.state_document st))).
  rewrite yaml_lines_state_document. unfold Store.written_state. cbn [Store.tasks].
  destruct elements_all_tasks_cons as (task & tasks & Helements).
  rewrite Helements. reflexivity.
Qed.



(** ** [migrate.py]: the key and the names of the assets *)

Section Rsplit.
Variable sep : ascii.

Lemma last_rsplit_rev_acc (maxsplit : nat) (rev_s cur : list ascii) (acc : list string) :
  acc ≠ [] →
  last (rsplit_rev sep maxsplit rev_s cur acc) = last acc.
Proof.
  revert maxsplit cur acc.
  induction rev_s as [| c rest IH]; intros maxsplit cur acc Hacc.
  - destruct acc; [done | reflexivity].
  - cbn [rsplit_rev]. destruct maxsplit as [| n]; [by apply IH |].
    destruct (Ascii.eqb c sep); [| by apply IH].
    rewrite IH by done. destruct acc; [done | reflexivity].
Qed.

Lemma last_rsplit_rev (n : nat) (rev_s cur : list ascii) :
  last (rsplit_rev sep (S n) rev_s cur [])
  = Some (String.string_of_list_ascii (reverse (until_sep sep rev_s) ++ cur)).
Proof.
  revert cur. induction rev_s as [| c rest IH]; intros cur; [reflexivity |].
  cbn [rsplit_rev until_sep]. destruct (Ascii.eqb c sep).
  - by rewrite last_rsplit_rev_acc.
  - rewrite IH, reverse_cons, <- app_assoc. reflexivity.
Qed.

Lemma until_sep_no_sep (rev_s : list ascii) :
  Forall (fun c => Ascii.eqb c sep = false) (until_sep sep rev_s).
Proof.
  induction rev_s as [| c rest IH]; [constructor |].
  cbn [until_sep]. destruct (Ascii.eqb c sep) eqn:E; by constructor.
Qed.

Lemma until_sep_app (name rest : list ascii) :
  Forall (fun c => Ascii.eqb c sep = false) name →
  until_sep sep (name ++ sep :: rest) = name.
Proof.
  induction 1 as [| c name Hc _ IH]; cbn [app until_sep].
  - by rewrite Ascii.eqb_refl.
  - by rewrite Hc, IH.
Qed.

Lemma occurs_string_of_list (l : list ascii) :
  occurs sep (String.string_of_list_ascii l) = false
  ↔ Forall (fun c => Ascii.eqb c sep = false) l.
Proof.
  induction l as [| c l IH]; cbn [String.string_of_list_ascii occurs].
  - split; [constructor | done].
  - rewrite orb_false_iff, IH, Forall_cons. done.
Qed.

End Rsplit.

Lemma list_ascii_of_string_app (s1 s2 : string) :
  String.list_ascii_of_string (s1 +:+ s2)
  = String.list_ascii_of_string s1 ++ String.list_ascii_of_string s2.
Proof.
  induction s1 as [| c s1 IH]; [reflexivity |].
  change (String c s1 +:+ s2) with (String c (s1 +:+ s2)).
  cbn [String.list_ascii_of_string app]. by rewrite IH.
Qed.

Lemma occurs_replace_new (old new : ascii) (s : string) :
  old ≠ new → occurs old (replace old new s) = false.
Proof.
  intros Hne. induction s as [| c s IH]; [reflexivity |].
  cbn [replace occurs]. rewrite IH, orb_false_r.
  destruct (Ascii.eqb c old) eqn:E; [| done].
  apply Ascii.eqb_neq. congruence.
Qed.

Lemma occurs_replace_other (old new c : ascii) (s : string) :
  c ≠ new → occurs c s = false → occurs c (replace old new s) = false.
Proof.
  intros Hne. induction s as [| c' s IH]; [done |].
  cbn [replace occurs]. rewrite !orb_false_iff. intros [Hc Hs].
  split; [| by apply IH].
  destruct (Ascii.eqb c' old); [| done].
  apply Ascii.eqb_neq. congruence.
Qed.

(** The piece [rsplit] cuts last is the end of the text after its last
    separator. *)
Lemma last_rsplit (sep : ascii) (n : nat) (s : string) :
  last (rsplit sep (S n) s)
  = Some (String.string_of_list_ascii
            (reverse (until_sep sep (reverse (String.list_ascii_of_string s))))).
Proof. unfold rsplit. by rewrite last_rsplit_rev, app_nil_r. Qed.

(** X9. The asset key of an export is defined for every path (indexing the
    pieces with [-1] never fails), and it contains neither a slash nor a
    dot. *)
Theorem export_asset_key_clean (str : Path -> string) (csv_path : Path) :
  ∃ asset_key,
    export_asset_key str csv_path = Some asset_key
    ∧ occurs "/"%char asset_key = false
    ∧ occurs "."%char asset_key = false.
Proof.
  unfold export_asset_key. rewrite last_rsplit. eexists. split; [reflexivity |].
  split.
  - apply occurs_replace_other; [done |].
    apply occurs_string_of_list, Forall_reverse, until_sep_no_sep.
  - by apply occurs_replace_new.
Qed.

(** X10. The asset key of an export depends on the file name alone: for a
    path rendered as [dir/name], with no slash in [name], it is [name] with
    every dot replaced by an underscore. *)
Theorem export_asset_key_of_file_name
    (str : Path -> string) (csv_path : Path) (dir file_name : string) :
  str csv_path = dir +:+ "/" +:+ file_name →
  occurs "/"%char file_name = false →
  export_asset_key str csv_path = Some (replace "."%char "_"%char file_name).
Proof.
  intros Hstr Hname. unfold export_asset_key. rewrite last_rsplit, Hstr.
  rewrite !list_ascii_of_string_app, reverse_app.
  change (String.list_ascii_of_string "/") with ["/"%char].
  rewrite reverse_app, <- app_assoc. cbn [reverse app].
  change (reverse ["/"%char]) with ["/"%char]. cbn [app].
  rewrite until_sep_app.
  - by rewrite reverse_involutive, String.string_of_list_ascii_of_string.
  - apply Forall_reverse, occurs_string_of_list.
    by rewrite String.string_of_list_ascii_of_string.
Qed.

Lemma export_asset_key_of_file_name_witness :
  export_asset_key (fun _ => "/dags/customers.v2.csv") (PathOf "ignored")
  = Some (replace "."%char "_"%char "customers.v2.csv").
Proof.
  apply (export_asset_key_of_file_name _ _ "/dags" "customers.v2.csv"); reflexivity.
Defined.

Lemma load_export_prefix (t1 t2 : string) : "load_" +:+ t1 ≠ "export_" +:+ t2.
Proof. discriminate. Qed.

(** X11. The asset definitions of a load and of an export never have the
    same name, whatever their arguments: in the two [Definitions] taken
    together no name occurs twice. *)
Theorem load_export_names_differ
    (str : Path -> string) (load_args : LoadCsvToDuckDbArgs.t)
    (export_args : ExportDuckDbToCsvArgs.t) (export_defs : Definitions) :
  export_duckdb_to_csv_defs str export_args = Some export_defs →
  NoDup (name <$> assets (load_csv_to_duckdb_defs load_args) ++ assets export_defs).
Proof.
  unfold export_duckdb_to_csv_defs, load_csv_to_duckdb_defs.
  destruct (export_asset_key _ _) as [asset_key |]; [| done].
  intros [= <-]. cbn. apply NoDup_cons. split.
  - rewrite list_elem_of_singleton. apply load_export_prefix.
  - apply NoDup_singleton.
Qed.

Lemma load_export_names_differ_witness :
  let load_args :=
    LoadCsvToDuckDbArgs.mk "customers" (PathOf "/dags/raw_customers.csv")
      (PathOf "/airflow/jaffle_shop.duckdb") ["id"; "first_name"; "last_name"]
      "raw_data" "jaffle_shop" in
  let export_args :=
    ExportDuckDbToCsvArgs.mk "customers" (PathOf "/dags/customers.csv")
      (PathOf "/airflow/jaffle_shop.duckdb") "raw_data" "jaffle_shop" in
  NoDup (name <$> assets (load_csv_to_duckdb_defs load_args)
                  ++ assets (mkDefinitions
                               [mkAssetsDefinition "export_customers"
                                  [mkAssetSpec (KeyStr "customers_csv") ["customers"]]
                                  (export_duckdb_to_csv export_args)])).
Proof.
  intros load_args export_args.
  apply (load_export_names_differ (fun _ => "/dags/customers.csv") load_args export_args).
  reflexivity.
Defined.

(** ** [conftest.py]: the [dags_dir] fixture *)

Lemma path_join_snoc (base : Path) (rel : list string) (c : string) :
  path_join base (rel ++ [c]) = path_join base rel // c.
Proof. unfold path_join. by rewrite foldl_app. Qed.

Lemma path_encode_join (base : Path) (rel : list string) :
  length (path_encode (path_join base rel)) = length rel + length (path_encode base).
Proof.
  induction rel as [| c rel IH] using rev_ind; [reflexivity |].
  rewrite path_join_snoc, path_encode_div, IH, length_app. cbn. lia.
Qed.

Lemma relative_to_path_join (base : Path) (rel : list string) :
  relative_to (path_join base rel) base = Some rel.
Proof.
  induction rel as [| c rel IH] using rev_ind; [apply relative_to_self |].
  rewrite path_join_snoc. cbn [relative_to].
  rewrite decide_False.
  - fold (relative_to (path_join base rel) base). by rewrite IH.
  - intros E. apply (f_equal (fun q => length (path_encode q))) in E.
    rewrite path_encode_div, path_encode_join in E. lia.
Qed.

Lemma relative_to_Some (p base : Path) (rel : list string) :
  relative_to p base = Some rel → p = path_join base rel.
Proof.
  revert rel. induction p as [s | q IH c]; intros rel; cbn [relative_to].
  - case_decide; [by intros [= <-]; subst | done].
  - case_decide as Hp; [by intros [= <-]; subst |].
    fold (relative_to q base).
    destruct (relative_to q base) as [rel' |] eqn:Hq; [| done].
    intros [= <-]. by rewrite path_join_snoc, <- (IH rel').
Qed.

Lemma path_join_inj (base : Path) (rel1 rel2 : list string) :
  path_join base rel1 = path_join base rel2 → rel1 = rel2.
Proof.
  intros Heq. pose proof (relative_to_path_join base rel1) as H1.
  rewrite Heq, relative_to_path_join in H1. by injection H1.
Qed.

Section CopyFiles.
Variables src dst : Path.

(** Copying changes nothing outside the destination. *)
Lemma copy_entries_outside (fs : gmap Path string) (l : list (Path * string)) (q : Path) :
  relative_to q dst = None →
  foldr (copy_entry src dst) fs l !! q = fs !! q.
Proof.
  intros Hq. induction l as [| [p c] l IH]; [reflexivity |].
  cbn [foldr]. unfold copy_entry at 1. cbn [fst snd].
  destruct (relative_to p src) as [rel |]; [| done].
  rewrite lookup_insert_ne; [done |].
  intros <-. by rewrite relative_to_path_join in Hq.
Qed.

(** A file below the source is found at the same place below the
    destination. *)
Lemma copy_entries_inside (fs : gmap Path string) (l : list (Path * string))
    (p : Path) (rel : list string) (c : string) :
  (∀ p' c', (p', c') ∈ l → relative_to p' src = Some rel → c' = c) →
  (p, c) ∈ l →
  relative_to p src = Some rel →
  foldr (copy_entry src dst) fs l !! path_join dst rel = Some c.
Proof.
  intros Huniq Hin Hrel. induction l as [| [p' c'] l IH]; [by apply elem_of_nil in Hin |].
  cbn [foldr]. unfold copy_entry at 1. cbn [fst snd].
  destruct (relative_to p' src) as [rel' |] eqn:Hrel'.
  - destruct (decide (rel' = rel)) as [-> | Hne].
    + rewrite lookup_insert_eq. f_equal. apply (Huniq p'); [left | done].
    + rewrite lookup_insert_ne by (by intros ?%path_join_inj).
      apply IH.
      * intros p'' c'' Hin''. apply Huniq. by right.
      * apply elem_of_cons in Hin as [[= -> ->] | Hin]; [congruence | done].
  - apply IH.
    + intros p'' c'' Hin''. apply Huniq. by right.
    + apply elem_of_cons in Hin as [[= -> ->] | Hin]; [congruence | done].
Qed.

Lemma copy_files_outside (fs : gmap Path string) (q : Path) :
  relative_to q dst = None → copy_files src dst fs !! q = fs !! q.
Proof. apply copy_entries_outside. Qed.

Lemma copy_files_inside (fs : gmap Path string) (rel : list string) (c : string) :
  fs !! path_join src rel = Some c →
  copy_files src dst fs !! path_join dst rel = Some c.
Proof.
  intros Hp. unfold copy_files.
  apply (copy_entries_inside _ _ (path_join src rel)).
  - intros p' c' Hin Hrel'. apply elem_of_map_to_list in Hin.
    apply relative_to_Some in Hrel'. subst p'. congruence.
  - by apply elem_of_map_to_list.
  - apply relative_to_path_join.
Qed.

End CopyFiles.

Lemma rmtree_outside (dir p : Path) (w : World) :
  relative_to p dir = None → files (rmtree dir w).2 !! p = files w !! p.
Proof.
  intros Hp. cbn. destruct (files w !! p) as [c |] eqn:E.
  - by apply map_lookup_filter_Some.
  - apply map_lookup_filter_None. left. done.
Qed.

Lemma rmtree_inside (dir p : Path) (w : World) (rel : list string) :
  relative_to p dir = Some rel → files (rmtree dir w).2 !! p = None.
Proof.
  intros Hp. cbn. apply map_lookup_filter_None. right.
  intros c _. cbn. congruence.
Qed.

(** Requesting the fixture: the dags are copied, the test runs with the
    temporary directory, and the directory is removed. *)
Lemma use_dags_dir (tmpdir : string) (makefile_dir : Path) (test : Path → M unit) (w : World) :
  use_fixture (dags_dir_fixture tmpdir makefile_dir) test w
  = (let '(r, w2) :=
       test (PathOf tmpdir)
         (copytree (makefile_dir // "tutorial_example" // "airflow_dags")
            (PathOf tmpdir) w).2 in
     (r, (rmtree (PathOf tmpdir) w2).2)).
Proof.
  unfold use_fixture, dags_dir_fixture, with_yield, mbind, M_bind, bind, try_finally.
  cbn [copytree mret M_ret ret fst snd].
  destruct (test _ _) as [r w2]. reflexivity.
Qed.

(** X12. The fixture copies the dags: it yields the temporary directory,
    and every file below [tutorial_example/airflow_dags] is then found at
    the same place below the temporary directory, with the same text. *)
Theorem dags_dir_copies_dags
    (tmpdir : string) (makefile_dir : Path) (w : World)
    (rel : list string) (contents : string) :
  files w !! path_join (makefile_dir // "tutorial_example" // "airflow_dags") rel
  = Some contents →
  ∃ teardown w1,
    dags_dir_fixture tmpdir makefile_dir w = (Ok (PathOf tmpdir, teardown), w1)
    ∧ files w1 !! path_join (PathOf tmpdir) rel = Some contents.
Proof.
  intros Hfile. unfold dags_dir_fixture, with_yield, mbind, M_bind, bind.
  cbn [copytree mret M_ret ret]. do 2 eexists. split; [reflexivity |].
  cbn [files]. by apply copy_files_inside.
Qed.

Lemma dags_dir_copies_dags_witness :
  let makefile_dir := PathOf "/repo" in
  let original := migration_state_file (makefile_dir // "tutorial_example" // "airflow_dags") in
  let w := {| files := {[ original := all_legacy_text ]}; writes := [] |} in
  ∃ teardown w1,
    dags_dir_fixture "/tmp/tmp1" makefile_dir w = (Ok (PathOf "/tmp/tmp1", teardown), w1)
    ∧ files w1 !! path_join (PathOf "/tmp/tmp1") ["migration_state"; "rebuild_customers_list.yaml"]
      = Some all_legacy_text.
Proof.
  intros makefile_dir original w. apply dags_dir_copies_dags.
  apply lookup_singleton_eq.
Defined.

(** X13. Manipulating the migration state in the copy does not affect the
    original files: after a test that uses [mark_tasks_migrated] on the
    directory the fixture yields, every file outside the temporary
    directory that [reserialize_dags] and the body leave alone is as it was
    before. *)
Theorem dags_dir_protects_originals
    (tmpdir : string) (makefile_dir : Path) (reserialize_dags body : M unit)
    (migrated_tasks : gset string) (w : World) (p : Path) :
  relative_to p (PathOf tmpdir) = None →
  preserves p reserialize_dags →
  preserves p body →
  files (use_fixture (dags_dir_fixture tmpdir makefile_dir)
           (fun dags_dir =>
              with_ (mark_tasks_migrated dags_dir reserialize_dags migrated_tasks) body)
           w).2 !! p
  = files w !! p.
Proof.
  intros Hp Hres Hbody. rewrite use_dags_dir.
  match goal with |- context [with_ ?cm body ?w1] =>
    pose proof (scope_frame_readable (PathOf tmpdir) reserialize_dags migrated_tasks body w1 p)
      as Hframe;
    pose proof (scope_unreadable_world (PathOf tmpdir) reserialize_dags migrated_tasks body w1)
      as Hunreadable;
    destruct (with_ cm body w1) as [r w2] eqn:Hscope;
    assert (Hscope_p : files w2 !! p = files w1 !! p)
  end.
  { assert (Hne : p ≠ migration_state_file (PathOf tmpdir)).
    { intros ->. unfold migration_state_file in Hp.
      by rewrite relative_to_two_below in Hp. }
    destruct (files (copytree _ _ w).2 !! migration_state_file (PathOf tmpdir))
      as [contents |] eqn:Hread.
    - by apply (Hframe contents).
    - cbn [snd] in Hunreadable. by rewrite Hunreadable. }
  cbv beta iota. cbn [snd].
  rewrite rmtree_outside, Hscope_p by done. cbn [copytree snd files].
  by apply copy_files_outside.
Qed.

Lemma dags_dir_protects_originals_witness :
  let makefile_dir := PathOf "/repo" in
  let original := migration_state_file (makefile_dir // "tutorial_example" // "airflow_dags") in
  let w := {| files := {[ original := all_legacy_text ]}; writes := [] |} in
  files (use_fixture (dags_dir_fixture "/tmp/tmp1" makefile_dir)
           (fun dags_dir =>
              with_ (mark_tasks_migrated dags_dir (mret tt) {[ "export_customers" ]})
                    (observe dags_dir))
           w).2 !! original
  = files w !! original.
Proof.
  intros makefile_dir original w. apply dags_dir_protects_originals.
  - reflexivity.
  - intros w'. reflexivity.
  - intros w'. unfold observe, mbind, M_bind, bind, read_text.
    destruct (files w' !! _); [| reflexivity].
    destruct (Store.parse_state _); [reflexivity |].
    cbn. by rewrite lookup_insert_ne.
Defined.

(** X14. The temporary directory does not outlive the test: once the
    fixture is torn down no file is left below it, whatever the test did
    and however it ended, and the outcome is the test's. *)
Theorem dags_dir_cleans_up
    (tmpdir : string) (makefile_dir : Path) (test : Path → M unit) (w : World)
    (p : Path) (rel : list string) :
  relative_to p (PathOf tmpdir) = Some rel →
  files (use_fixture (dags_dir_fixture tmpdir makefile_dir) test w).2 !! p = None
  ∧ (use_fixture (dags_dir_fixture tmpdir makefile_dir) test w).1
    = (test (PathOf tmpdir)
         (copytree (makefile_dir // "tutorial_example" // "airflow_dags")
            (PathOf tmpdir) w).2).1.
Proof.
  intros Hp. rewrite use_dags_dir.
  destruct (test _ _) as [r w2]. split; [| reflexivity].
  by apply (rmtree_inside _ _ _ rel).
Qed.

Lemma dags_dir_cleans_up_witness :
  let makefile_dir := PathOf "/repo" in
  let original := migration_state_file (makefile_dir // "tutorial_example" // "airflow_dags") in
  let w := {| files := {[ original := all_legacy_text ]}; writes := [] |} in
  let test := fun dags_dir : Path => write_text (dags_dir // "scratch") "left behind" in
  files (use_fixture (dags_dir_fixture "/tmp/tmp1" makefile_dir) test w).2
    !! (PathOf "/tmp/tmp1" // "scratch") = None
  ∧ (use_fixture (dags_dir_fixture "/tmp/tmp1" makefile_dir) test w).1
    = (test (PathOf "/tmp/tmp1")
         (copytree (makefile_dir // "tutorial_example" // "airflow_dags")
            (PathOf "/tmp/tmp1") w).2).1.
Proof.
  intros makefile_dir original w test.
  apply (dags_dir_cleans_up _ _ _ _ _ ["scratch"]). reflexivity.
Defined.


